(** * Verification of the market-cap tranche tracker in [getBalances.js]

    The development embeds the classification-and-change-detection part of
    the script: [getMarketCapTranche], the comparison loop and snapshot
    handling of [trackMarketCapChanges], [fetchTokenPrices], [chunkArray]
    and the batch loop of [getAllTokenBalances].

    Modelling choices:
    - JavaScript numbers are IEEE-754 binary64 values; they are modelled
      by the primitive floats of the prover, which are the same format, so
      that [<] is the IEEE comparison (false whenever an operand is NaN).
    - Plain objects used as dictionaries keyed by mint address are finite
      maps.  Mint addresses are base58 public keys: no key is an array
      index or the name of a member of [Object.prototype], so reading a
      property is a map lookup and [undefined] means that the key is
      absent.  A [for ... in] loop visits every key once; the order in
      which the model visits them is that of the finite map, not the
      insertion order, and no statement below depends on it.
    - The files are represented by their contents after parsing, the
      network by the outcome of each request, exceptions by [None].
    - The hourly schedule and the export of the bonded coins are left
      out. *)

From Stdlib Require Import Floats ZArith Lia.
From stdpp Require Import gmap strings list fin_maps.

Open Scope string_scope.

(** ** JavaScript values held in the snapshot

    [JSON.parse] of a file produced by [JSON.stringify] of a dictionary of
    numbers yields properties that are numbers or [null] ([null] is what
    [JSON.stringify] writes for NaN and the infinities). *)

Inductive jsval : Type :=
  | Num (x : float)
  | Null.

(** [ToNumber] of ECMAScript on these values: [null] converts to [+0]. *)
Definition ToNumber (v : jsval) : float :=
  match v with
  | Num x => x
  | Null => 0%float
  end.

(** [v < c] for a numeric constant [c]: both operands are converted to
    numbers and compared as binary64 values. *)
Definition js_lt (v : jsval) (c : float) : bool :=
  PrimFloat.ltb (ToNumber v) c.

(** ** [getMarketCapTranche] (lines 130-138) *)

Definition getMarketCapTranche (marketCap : jsval) : string :=
  if js_lt marketCap 100000%float then "unbonded-bonded"
  else if js_lt marketCap 500000%float then "0-100k"
  else if js_lt marketCap 1000000%float then "100k-500k"
  else if js_lt marketCap 3000000%float then "500k-1M"
  else if js_lt marketCap 10000000%float then "1M-3M"
  else if js_lt marketCap 20000000%float then "3M-10M"
  else "10M-20M".

(** ** Notifications

    [notifyTelegram(mint, tranche, marketCap)] sends one message; a call
    is recorded by its three arguments. *)

Record notification : Type := notifyTelegram {
  msg_mint : string;
  msg_tranche : string;
  msg_marketCap : float
}.

(** ** The comparison loop of [trackMarketCapChanges] (lines 150-166)

    One iteration for the property [mint] of [currentMarketCaps].
    [previousData[mint]] is [undefined] exactly when the snapshot has no
    such property. *)

Definition compareMint (previousData : gmap string jsval)
    (mint : string) (currentCap : float) : list notification :=
  match previousData !! mint with
  | None => [notifyTelegram mint "unbonded-bonded" currentCap]
  | Some previousCap =>
      let currentTranche := getMarketCapTranche (Num currentCap) in
      let previousTranche := getMarketCapTranche previousCap in
      if String.eqb currentTranche previousTranche then []
      else [notifyTelegram mint currentTranche currentCap]
  end.

(** The [for (const mint in currentMarketCaps)] loop: the notifications
    sent, one key after the other. *)
Definition detect (currentMarketCaps : gmap string float)
    (previousData : gmap string jsval) : list notification :=
  flat_map (λ kv, compareMint previousData kv.1 kv.2)
           (map_to_list currentMarketCaps).

(** ** The snapshot file [tmp_data_previous.json]

    The text of the file is represented by what [JSON.parse] makes of it:
    an object with number-or-null properties, which is what the program
    writes, or a text that [JSON.parse] rejects with a [SyntaxError]. *)

Inductive file_text : Type :=
  | JsonObject (props : gmap string jsval)
  | Unparsable.

(** [JSON.stringify] of a number: NaN and the infinities are written as
    [null], negative zero as [0], any other number as the shortest
    decimal that reads back as the same number. *)
Definition SerializeJSONNumber (x : float) : jsval :=
  match classify x with
  | NaN | PInf | NInf => Null
  | NZero => Num 0%float
  | _ => Num x
  end.

Definition JSON_stringify (value : gmap string float) : file_text :=
  JsonObject (SerializeJSONNumber <$> value).

(** [JSON.parse]: [None] stands for the exception thrown. *)
Definition JSON_parse (text : file_text) : option (gmap string jsval) :=
  match text with
  | JsonObject props => Some props
  | Unparsable => None
  end.

(** What a run can observe and change: the snapshot file ([None] when it
    does not exist), the rows of [tmp_data_unbonded.csv] and the messages
    sent so far. *)
Record world : Type := World {
  snapshot_file : option file_text;
  unbonded_csv : list string;
  telegram : list notification
}.

(** Lines 142-147: the previous market caps, [{}] when the file does not
    exist. *)
Definition loadPrevious (file : option file_text) : option (gmap string jsval) :=
  match file with
  | None => Some ∅
  | Some text => JSON_parse text
  end.

(** Line 169. *)
Definition savePrevious (currentMarketCaps : gmap string float) : option file_text :=
  Some (JSON_stringify currentMarketCaps).

(** [trackMarketCapChanges] (lines 141-170); [None] when [JSON.parse]
    throws, which happens before any message is sent or file written. *)
Definition trackMarketCapChanges (currentMarketCaps : gmap string float)
    (w : world) : option world :=
  previousData ← loadPrevious (snapshot_file w);
  Some {| snapshot_file := savePrevious currentMarketCaps;
          unbonded_csv := unbonded_csv w;
          telegram := telegram w ++ detect currentMarketCaps previousData |}.

(** ** The collaborators of a run *)

(** A property of the price response: a JSON scalar. *)
Inductive json_scalar : Type :=
  | JNull
  | JBool (b : bool)
  | JNumber (x : float)
  | JString (s : string).

(** [ToBoolean]: [null], [false], zeros, NaN and the empty string are
    falsy. *)
Definition truthy (v : json_scalar) : bool :=
  match v with
  | JNull => false
  | JBool b => b
  | JNumber x => PrimFloat.ltb x 0%float || PrimFloat.ltb 0%float x
  | JString s => negb (String.eqb s "")
  end.

(** Outcome of [axios.get]: the [try] block of [fetchTokenPrices] throws
    (request rejected, or a response without body), or it evaluates
    [response.data.data], which is [undefined] ([None]) when the body has
    no [data] member. *)
Inductive http_outcome : Type :=
  | HttpFailed
  | HttpBody (data : option (gmap string json_scalar)).

Record tokenAccount : Type := TokenAccount {
  info_mint : string;
  info_uiAmount : jsval
}.

(** What the outside world answers during one run. *)
Record env : Type := Env {
  (** [connection.getParsedTokenAccountsByOwner]; [None] when it rejects *)
  getParsedTokenAccountsByOwner : option (list tokenAccount);
  (** [axios.get]: the outcome of the [n]-th request of the run, by URL *)
  axios_get : nat → string → http_outcome;
  (** the built-in [parseFloat] *)
  parseFloat : json_scalar → float
}.

Definition RAYDIUM_API_URL : string := "https://api-v3.raydium.io/mint/price".

(** ** [fetchTokenPrices] (lines 93-101), called for the [n]-th batch *)
Definition fetchTokenPrices (e : env) (n : nat) (mintList : string)
    : option (gmap string json_scalar) :=
  match axios_get e n (RAYDIUM_API_URL ++ "?mints=" ++ mintList) with
  | HttpBody data => data
  | HttpFailed => Some ∅
  end.

(** ** [chunkArray] (lines 104-110)

    [array.slice(i, i + size)] and the loop on [i]; the loop runs at most
    [array.length] times when [size] is positive. *)
Definition slice {A} (array : list A) (i j : nat) : list A :=
  take (j - i) (drop i array).

Fixpoint chunkLoop {A} (fuel : nat) (array : list A) (size i : nat)
    (result : list (list A)) : list (list A) :=
  match fuel with
  | O => result
  | S fuel' =>
      if (i <? length array)%nat
      then chunkLoop fuel' array size (i + size)
                     (result ++ [slice array i (i + size)])
      else result
  end.

Definition chunkArray {A} (array : list A) (size : nat) : list (list A) :=
  chunkLoop (length array) array size 0 [].

(** ** [getAllTokenBalances] (lines 24-91) *)

(** The three accumulators of the batch loop. *)
Record tally : Type := Tally {
  bondedCoins : list (string * float);
  unbondedCoins : list string;
  currentMarketCaps : gmap string float
}.

(** Body of [batch.forEach] (lines 58-67). *)
Definition classifyMint (e : env) (prices : gmap string json_scalar)
    (t : tally) (mint : string) : tally :=
  match prices !! mint with
  | Some priceData =>
      if truthy priceData then
        let marketCap := PrimFloat.mul (parseFloat e priceData) 1e9%float in
        {| bondedCoins := bondedCoins t ++ [(mint, marketCap)];
           unbondedCoins := unbondedCoins t;
           currentMarketCaps := <[mint := marketCap]> (currentMarketCaps t) |}
      else
        {| bondedCoins := bondedCoins t;
           unbondedCoins := unbondedCoins t ++ [mint];
           currentMarketCaps := currentMarketCaps t |}
  | None =>
      {| bondedCoins := bondedCoins t;
         unbondedCoins := unbondedCoins t ++ [mint];
         currentMarketCaps := currentMarketCaps t |}
  end.

(** The [for (const batch of batches)] loop (lines 53-68), from the
    [n]-th batch on; [None] when [prices] is [undefined] and
    [prices[mint]] throws. *)
Fixpoint priceBatches (e : env) (n : nat) (batches : list (list string))
    (t : tally) : option tally :=
  match batches with
  | [] => Some t
  | batch :: rest =>
      let mintList := String.concat "," batch in
      match fetchTokenPrices e n mintList with
      | Some prices =>
          priceBatches e (S n) rest (foldl (classifyMint e prices) t batch)
      | None =>
          match batch with
          | [] => priceBatches e (S n) rest t
          | _ :: _ => None
          end
      end
  end.

(** Lines 32-42: mints of the accounts with a balance greater than 0. *)
Definition heldMints (tokenAccounts : list tokenAccount) : list string :=
  info_mint <$> filter (λ a, PrimFloat.ltb 0%float (ToNumber (info_uiAmount a)) = true)
                       tokenAccounts.

(** [saveToCSV(unbondedCoins, 'tmp_data_unbonded.csv', false)].  The
    export of the bonded coins, sorted by market cap, goes to a file of
    its own and is left out. *)
Definition saveUnbondedCSV (data : list string) (w : world) : world :=
  {| snapshot_file := snapshot_file w;
     unbonded_csv := data;
     telegram := telegram w |}.

(** One run.  Whatever throws inside the [try] block is caught and
    logged, and the run ends there with what was written so far. *)
Definition getAllTokenBalances (e : env) (w : world) : world :=
  match getParsedTokenAccountsByOwner e with
  | None => w
  | Some tokenAccounts =>
      let mintAddresses := heldMints tokenAccounts in
      if (0 <? length mintAddresses)%nat then
        let batches := chunkArray mintAddresses 99 in
        match priceBatches e 0 batches (Tally [] [] ∅) with
        | None => w
        | Some t =>
            let w1 := saveUnbondedCSV (unbondedCoins t) w in
            match trackMarketCapChanges (currentMarketCaps t) w1 with
            | Some w2 => w2
            | None => w1
            end
        end
      else w
  end.

(** ** The specification's reading of the data model *)

(** The bracket table in the specification's words: each bracket is
    [[lower, upper)], the last one has no upper bound. *)
Definition bracket_table : list (float * option float * string) :=
  [ (0%float,        Some 100000%float,   "unbonded-bonded");
    (100000%float,   Some 500000%float,   "0-100k");
    (500000%float,   Some 1000000%float,  "100k-500k");
    (1000000%float,  Some 3000000%float,  "500k-1M");
    (3000000%float,  Some 10000000%float, "1M-3M");
    (10000000%float, Some 20000000%float, "3M-10M");
    (20000000%float, None,                "10M-20M") ].

Definition in_bracket (x lower : float) (upper : option float) : bool :=
  PrimFloat.leb lower x &&
  match upper with
  | Some u => PrimFloat.ltb x u
  | None => true
  end.

(** A MarketCap of the specification: a non-negative finite number
    (positive zero, or a positive subnormal or normal value). *)
Definition isMarketCap (x : float) : bool :=
  match classify x with
  | PZero | PSubn | PNormal => true
  | _ => false
  end.

(** The market cap that the price response of the [n]-th batch gives to
    a mint: the response has a truthy entry for it.  This is what "the
    token had a resolvable price" means for one batch. *)
Definition priceOf (e : env) (prices : gmap string json_scalar)
    (mint : string) : option float :=
  priceData ← prices !! mint;
  if truthy priceData
  then Some (PrimFloat.mul (parseFloat e priceData) 1e9%float)
  else None.

Definition batchQuote (e : env) (n : nat) (batch : list string)
    (mint : string) : option float :=
  prices ← fetchTokenPrices e n (String.concat "," batch);
  priceOf e prices mint.

(** The response for the [n]-th batch is usable by the loop: [prices] is
    an object (the request failed and gave [{}], or the body had its
    [data]). *)
Definition batchAnswered (e : env) (n : nat) (batch : list string) : Prop :=
  is_Some (fetchTokenPrices e n (String.concat "," batch)).

(** ** Sample runs *)

(** A wallet whose only token account has a zero balance, next to a
    snapshot that lists the token. *)
Definition emptied_accounts : list tokenAccount :=
  [TokenAccount "T" (Num 0%float)].

Definition emptied_env : env :=
  Env (Some emptied_accounts) (λ _ _, HttpFailed) (λ _, nan).

Definition emptied_world : world :=
  World (Some (JsonObject {["T" := Num 10000%float]})) [] [].

(** A wallet with a hundred token accounts, the first and the last for
    the same mint [T]: the first batch of 99 holds [T], the second batch
    is [T] alone.  The first price request fails, the second one is
    answered. *)
Definition twice_accounts : list tokenAccount :=
  TokenAccount "T" (Num 1%float)
    :: repeat (TokenAccount "U" (Num 1%float)) 98
    ++ [TokenAccount "T" (Num 1%float)].

Definition twice_env : env :=
  Env (Some twice_accounts)
      (λ n _, match n with
              | 0 => HttpFailed
              | _ => HttpBody (Some {["T" := JString "0.25"]})
              end)
      (λ _, 0.25%float).

(** Two tokens, one batch, answered with a price for [A] only. *)
Definition pair_accounts : list tokenAccount :=
  [TokenAccount "A" (Num 1%float); TokenAccount "B" (Num 2%float)].

Definition pair_env : env :=
  Env (Some pair_accounts)
      (λ _ _, HttpBody (Some {["A" := JString "0.5"]}))
      (λ _, 0.5%float).

(** The same wallet when the price service is down. *)
Definition offline_env : env :=
  Env (Some pair_accounts) (λ _ _, HttpFailed) (λ _, nan).

(** ** The runs of the script (lines 178-185)

    One run when the script starts, then one run every hour; each run is
    taken to end before the next one starts.  The outside world of each
    run is given in order. *)
Definition scheduledRuns (outside : list env) (w : world) : world :=
  foldl (λ w e, getAllTokenBalances e w) w outside.

(** ** The labels of [getMarketCapTranche], in the order of its [return]
    statements, and the position of a label in that order. *)
Definition tranches : list string :=
  ["unbonded-bonded"; "0-100k"; "100k-500k"; "500k-1M"; "1M-3M"; "3M-10M";
   "10M-20M"].

Fixpoint positionIn (labels : list string) (label : string) : nat :=
  match labels with
  | [] => 0
  | l :: rest => if String.eqb l label then 0 else S (positionIn rest label)
  end.

Definition trancheRank (label : string) : nat := positionIn tranches label.


(** The same wallet when the price service answers without [data]. *)
Definition nodata_env : env :=
  Env (Some pair_accounts) (λ _ _, HttpBody None) (λ _, nan).

(** A wallet whose accounts hold nothing that counts: a zero balance, a
    negative one, NaN and [null]. *)
Definition idle_env : env :=
  Env (Some [TokenAccount "A" (Num 0%float); TokenAccount "B" (Num (-1)%float);
             TokenAccount "C" (Num nan); TokenAccount "D" Null])
      (λ _ _, HttpBody (Some {["A" := JString "0.5"]}))
      (λ _, 0.5%float).

(** The mints the batch loop has classified so far, and the relation it
    keeps between its dictionary and its list of bonded coins. *)
Definition classified (t : tally) : list string :=
  ((bondedCoins t).*1 ++ unbondedCoins t)%list.

Definition capsOfBonded (t : tally) : Prop :=
  currentMarketCaps t = list_to_map (reverse (bondedCoins t)).

(** What the batch loop computes for [pair_env]. *)
Definition pair_tally : tally :=
  Tally [("A", 500000000%float)] ["B"] {["A" := 500000000%float]}.

(** ** [saveToCSV] (lines 113-127)

    The text handed to [fs.writeFileSync].  A coin is an object with a
    [mint] and, for a bonded coin, a [marketCap]; a template literal
    prints a missing member as [undefined].  The printing of a number is
    the built-in's and is a parameter. *)

Definition newline : string := String (Ascii.ascii_of_nat 10) EmptyString.

Record coin : Type := Coin {
  coin_mint : string;
  coin_marketCap : option float
}.

Definition templateText (numberToString : float → string)
    (marketCap : option float) : string :=
  match marketCap with
  | Some x => numberToString x
  | None => "undefined"
  end.

Definition saveToCSV (numberToString : float → string)
    (data : list coin) (isBonded : bool) : string :=
  let headers := if isBonded then "Mint,MarketCap" ++ newline
                 else "Mint" ++ newline in
  foldl (λ (csvContent : string) (c : coin),
           if isBonded
           then csvContent ++ (coin_mint c ++ "," ++
                  templateText numberToString (coin_marketCap c) ++ newline)
           else csvContent ++ (coin_mint c ++ newline))
        headers data.

(** Reading a text line by line, and the line that [saveToCSV] writes
    for a coin. *)
Fixpoint hasNewline (s : string) : bool :=
  match s with
  | EmptyString => false
  | String c rest => Ascii.eqb c (Ascii.ascii_of_nat 10) || hasNewline rest
  end.

Fixpoint splitLines (s : string) : list string :=
  match s with
  | EmptyString => [EmptyString]
  | String c rest =>
      if Ascii.eqb c (Ascii.ascii_of_nat 10) then EmptyString :: splitLines rest
      else match splitLines rest with
           | line :: lines => String c line :: lines
           | [] => [String c EmptyString]
           end
  end.

Definition csvRow (numberToString : float → string) (isBonded : bool)
    (c : coin) : string :=
  if isBonded
  then coin_mint c ++ "," ++ templateText numberToString (coin_marketCap c)
  else coin_mint c.

(** The constants that [getMarketCapTranche] compares with, in order. *)
Definition thresholds : list float :=
  [100000%float; 500000%float; 1000000%float; 3000000%float;
   10000000%float; 20000000%float].

(** * Properties *)

(** ** Order facts on binary64 values

    The comparisons of the primitive floats are specified on their
    sign-mantissa-exponent decomposition; the order facts needed below
    are read off that specification. *)

Ltac sf_cases :=
  repeat match goal with
  | f : spec_float |- _ => destruct f as [[]|[]| |[] ? ?]
  end.

Ltac cmp_split :=
  repeat match goal with
  | |- context [Z.compare ?a ?b] => destruct (Z.compare_spec a b)
  | H : context [Z.compare ?a ?b] |- _ => destruct (Z.compare_spec a b)
  | |- context [Pos.compare_cont Eq ?a ?b] =>
      change (Pos.compare_cont Eq a b) with (Pos.compare a b);
      destruct (Pos.compare_spec a b)
  | H : context [Pos.compare_cont Eq ?a ?b] |- _ =>
      change (Pos.compare_cont Eq a b) with (Pos.compare a b) in H;
      destruct (Pos.compare_spec a b)
  end.

Ltac sf_order :=
  unfold SFleb, SFltb, SFcompare; sf_cases; simpl; try congruence;
  intros; cmp_split; simpl in *; subst; try congruence; try lia.

Lemma SFleb_trans a b c :
  SFleb a b = true → SFleb b c = true → SFleb a c = true.
Proof. sf_order. Qed.

Lemma SFltb_leb_trans a b c :
  SFltb a b = true → SFleb b c = true → SFltb a c = true.
Proof. sf_order. Qed.

Lemma SFleb_not_ltb a b : SFleb a b = true → SFltb b a = false.
Proof. sf_order. Qed.

Lemma SFnot_ltb_leb a b :
  SFleb a a = true → SFleb b b = true → SFltb a b = false → SFleb b a = true.
Proof. sf_order. Qed.

Lemma SFleb_refl_l a b : SFleb a b = true → SFleb b b = true.
Proof. sf_order. Qed.

Lemma SFltb_leb a b : SFltb a b = true → SFleb a b = true.
Proof. sf_order. Qed.

Section FloatOrder.
Local Open Scope float_scope.
Implicit Types x y z : float.

Lemma fle_trans x y z : (x <=? y) = true → (y <=? z) = true → (x <=? z) = true.
Proof. rewrite !leb_spec. apply SFleb_trans. Qed.

Lemma flt_le_trans x y z : (x <? y) = true → (y <=? z) = true → (x <? z) = true.
Proof. rewrite !ltb_spec, leb_spec. apply SFltb_leb_trans. Qed.

Lemma fle_not_lt x y : (x <=? y) = true → (y <? x) = false.
Proof. rewrite leb_spec, ltb_spec. apply SFleb_not_ltb. Qed.

Lemma fnot_lt_le x y :
  (x <=? x) = true → (y <=? y) = true → (x <? y) = false → (y <=? x) = true.
Proof. rewrite !leb_spec, ltb_spec. apply SFnot_ltb_leb. Qed.

Lemma fle_refl_l x y : (x <=? y) = true → (y <=? y) = true.
Proof. rewrite !leb_spec. apply SFleb_refl_l. Qed.

Lemma flt_le x y : (x <? y) = true → (x <=? y) = true.
Proof. rewrite ltb_spec, leb_spec. apply SFltb_leb. Qed.

(** A threshold at or below a lower bound of [x] is not above [x]. *)
Lemma threshold_passed x c lower :
  (lower <=? x) = true → (c <=? lower) = true → (x <? c) = false.
Proof. intros Hx Hc. apply fle_not_lt. exact (fle_trans _ _ _ Hc Hx). Qed.

(** A threshold at or above a strict upper bound of [x] is above [x]. *)
Lemma threshold_ahead x c upper :
  (x <? upper) = true → (upper <=? c) = true → (x <? c) = true.
Proof. intros Hx Hc. exact (flt_le_trans _ _ _ Hx Hc). Qed.
End FloatOrder.

Ltac thresholds x Hlo Hhi :=
  unfold getMarketCapTranche, js_lt; simpl ToNumber;
  repeat match goal with
  | |- context [PrimFloat.ltb x ?c] =>
      first [ rewrite (threshold_passed x c _ Hlo eq_refl)
            | rewrite (threshold_ahead x c _ Hhi eq_refl) ]
  end.

(** ** The classifier *)

Lemma tranche_below_100k x :
  PrimFloat.ltb x 100000 = true → getMarketCapTranche (Num x) = "unbonded-bonded".
Proof. intros H. unfold getMarketCapTranche, js_lt. simpl. by rewrite H. Qed.

Lemma tranche_top x :
  PrimFloat.leb 20000000 x = true → getMarketCapTranche (Num x) = "10M-20M".
Proof.
  intros Hlo.
  unfold getMarketCapTranche, js_lt; simpl ToNumber.
  repeat match goal with
  | |- context [PrimFloat.ltb x ?c] =>
      rewrite (threshold_passed x c _ Hlo eq_refl)
  end.
  reflexivity.
Qed.

Lemma tranche_of_bracket x lower upper label :
  (lower, upper, label) ∈ bracket_table →
  in_bracket x lower upper = true →
  getMarketCapTranche (Num x) = label.
Proof.
  unfold bracket_table, in_bracket. intros Hrow Hin.
  apply andb_true_iff in Hin as [Hlo Hhi].
  repeat (apply elem_of_cons in Hrow as [Hrow|Hrow];
          [injection Hrow as -> -> ->|]).
  1: by apply tranche_below_100k.
  1-5: by thresholds x Hlo Hhi.
  - by apply tranche_top.
  - by apply elem_of_nil in Hrow.
Qed.

Lemma bracket_exists x :
  PrimFloat.leb 0 x = true →
  ∃ lower upper label,
    (lower, upper, label) ∈ bracket_table ∧ in_bracket x lower upper = true.
Proof.
  intros H0. pose proof (fle_refl_l _ _ H0) as Hx.
  assert (Hge : ∀ c, PrimFloat.ltb x c = false →
                     PrimFloat.leb c c = true → PrimFloat.leb c x = true).
  { intros c Hlt Hc. by apply fnot_lt_le. }
  unfold bracket_table, in_bracket.
  destruct (PrimFloat.ltb x 100000) eqn:H1.
  { eexists _, _, _. split; [apply list_elem_of_lookup_2 with 0%nat; reflexivity|].
    simpl. by rewrite H0, H1. }
  destruct (PrimFloat.ltb x 500000) eqn:H2.
  { eexists _, _, _. split; [apply list_elem_of_lookup_2 with 1%nat; reflexivity|].
    simpl. by rewrite (Hge _ H1 eq_refl), H2. }
  destruct (PrimFloat.ltb x 1000000) eqn:H3.
  { eexists _, _, _. split; [apply list_elem_of_lookup_2 with 2%nat; reflexivity|].
    simpl. by rewrite (Hge _ H2 eq_refl), H3. }
  destruct (PrimFloat.ltb x 3000000) eqn:H4.
  { eexists _, _, _. split; [apply list_elem_of_lookup_2 with 3%nat; reflexivity|].
    simpl. by rewrite (Hge _ H3 eq_refl), H4. }
  destruct (PrimFloat.ltb x 10000000) eqn:H5.
  { eexists _, _, _. split; [apply list_elem_of_lookup_2 with 4%nat; reflexivity|].
    simpl. by rewrite (Hge _ H4 eq_refl), H5. }
  destruct (PrimFloat.ltb x 20000000) eqn:H6.
  { eexists _, _, _. split; [apply list_elem_of_lookup_2 with 5%nat; reflexivity|].
    simpl. by rewrite (Hge _ H5 eq_refl), H6. }
  eexists _, _, _. split; [apply list_elem_of_lookup_2 with 6%nat; reflexivity|].
  simpl. by rewrite (Hge _ H6 eq_refl).
Qed.

Example tranche_of_nan : getMarketCapTranche (Num nan) = "10M-20M".
Proof. reflexivity. Qed.

Example tranche_of_null : getMarketCapTranche Null = "unbonded-bonded".
Proof. reflexivity. Qed.

(** C1. [getMarketCapTranche] is a total function whose brackets have
    exclusive upper bounds: it takes the values the specification lists at
    99999, 100000, 499999, 500000, 20000000 and 50000000; every value at
    or above 20,000,000 is labelled ["10M-20M"]; every non-negative
    market cap lies in a bracket [[lower, upper)] of the table; and the
    label returned is the label of any bracket of the table that holds the
    value (so that bracket is the only one). *)
Theorem getMarketCapTranche_boundaries :
  getMarketCapTranche (Num 99999%float) = "unbonded-bonded" ∧
  getMarketCapTranche (Num 100000%float) = "0-100k" ∧
  getMarketCapTranche (Num 499999%float) = "0-100k" ∧
  getMarketCapTranche (Num 500000%float) = "100k-500k" ∧
  getMarketCapTranche (Num 20000000%float) = "10M-20M" ∧
  getMarketCapTranche (Num 50000000%float) = "10M-20M" ∧
  (∀ x, PrimFloat.leb 20000000 x = true →
        getMarketCapTranche (Num x) = "10M-20M") ∧
  (∀ x, PrimFloat.leb 0 x = true →
        ∃ lower upper label,
          (lower, upper, label) ∈ bracket_table ∧
          in_bracket x lower upper = true) ∧
  (∀ x lower upper label,
        (lower, upper, label) ∈ bracket_table →
        in_bracket x lower upper = true →
        getMarketCapTranche (Num x) = label).
Proof.
  repeat (split; [reflexivity|]).
  split; [exact tranche_top|].
  split; [exact bracket_exists|exact tranche_of_bracket].
Qed.

Lemma getMarketCapTranche_boundaries_witness :
  in_bracket 250000%float 100000%float (Some 500000%float) = true ∧
  getMarketCapTranche (Num 250000%float) = "0-100k".
Proof.
  split; [reflexivity|].
  apply (proj2 (proj2 (proj2 (proj2 (proj2 (proj2 (proj2 (proj2
           getMarketCapTranche_boundaries))))))))
    with (lower := 100000%float) (upper := Some 500000%float).
  - apply list_elem_of_lookup_2 with 1%nat. reflexivity.
  - reflexivity.
Defined.

(** C10. Every number strictly below 100,000 is labelled
    ["unbonded-bonded"], and so is every negative number (negative
    infinity included). *)
Theorem getMarketCapTranche_below_first_threshold :
  (∀ x, PrimFloat.ltb x 100000 = true →
        getMarketCapTranche (Num x) = "unbonded-bonded") ∧
  (∀ x, PrimFloat.ltb x 0 = true →
        getMarketCapTranche (Num x) = "unbonded-bonded").
Proof.
  split; [exact tranche_below_100k|].
  intros x Hneg. apply tranche_below_100k.
  by apply (threshold_ahead x _ 0%float).
Qed.

Lemma getMarketCapTranche_below_first_threshold_witness :
  PrimFloat.ltb (-5)%float 0 = true ∧
  getMarketCapTranche (Num (-5)%float) = "unbonded-bonded" ∧
  getMarketCapTranche (Num neg_infinity) = "unbonded-bonded".
Proof.
  split; [reflexivity|]. split.
  - apply (proj2 getMarketCapTranche_below_first_threshold). reflexivity.
  - apply (proj1 getMarketCapTranche_below_first_threshold). reflexivity.
Defined.

(** ** The comparison loop *)

Lemma detect_empty_current previousData : detect ∅ previousData = [].
Proof. unfold detect. by rewrite map_to_list_empty. Qed.

Lemma detect_singleton mint cap previousData :
  detect {[mint := cap]} previousData = compareMint previousData mint cap.
Proof.
  unfold detect. rewrite map_to_list_singleton. simpl. apply app_nil_r.
Qed.

Lemma elem_of_detect e (current : gmap string float) previousData :
  e ∈ detect current previousData ↔
  ∃ mint cap, current !! mint = Some cap ∧ e ∈ compareMint previousData mint cap.
Proof.
  unfold detect. rewrite list_elem_of_In, in_flat_map. split.
  - intros [[mint cap] [Hin He]].
    exists mint, cap. split.
    + apply elem_of_map_to_list. by apply list_elem_of_In.
    + by apply list_elem_of_In.
  - intros (mint & cap & Hcur & He).
    exists (mint, cap). split.
    + apply list_elem_of_In. by apply elem_of_map_to_list.
    + by apply list_elem_of_In.
Qed.

Lemma compareMint_about e previousData mint cap :
  e ∈ compareMint previousData mint cap →
  msg_mint e = mint ∧ msg_marketCap e = cap.
Proof.
  unfold compareMint.
  destruct (previousData !! mint) as [previousCap|].
  - destruct (String.eqb _ _).
    + by intros ?%elem_of_nil.
    + by intros ->%list_elem_of_singleton.
  - by intros ->%list_elem_of_singleton.
Qed.

Lemma compareMint_new previousData mint cap :
  previousData !! mint = None →
  compareMint previousData mint cap = [notifyTelegram mint "unbonded-bonded" cap].
Proof. intros H. unfold compareMint. by rewrite H. Qed.

Lemma compareMint_unchanged (M : gmap string float) mint cap :
  M !! mint = Some cap → compareMint (Num <$> M) mint cap = [].
Proof.
  intros H. unfold compareMint. rewrite lookup_fmap, H. simpl.
  by rewrite String.eqb_refl.
Qed.

Lemma flat_map_nil {A B} (f : A → list B) (l : list A) :
  (∀ a, a ∈ l → f a = []) → flat_map f l = [].
Proof.
  induction l as [|a l IH]; intros Hf; simpl; [done|].
  rewrite (Hf a) by apply list_elem_of_here.
  apply IH. intros b Hb. apply Hf. by apply list_elem_of_further.
Qed.

Lemma crossing_600k_over_400k (T : string) :
  detect {[T := 600000%float]} {[T := Num 400000%float]}
    = [notifyTelegram T "100k-500k" 600000%float] ∧
  detect {[T := 450000%float]} {[T := Num 420000%float]} = [].
Proof.
  rewrite !detect_singleton. unfold compareMint.
  rewrite !lookup_singleton_eq. split; reflexivity.
Qed.


(** C2 (as amended). For current [{T: 600000}] and previous [{T: 400000}]
    the loop sends exactly one notification for [T], with the tranche
    ["100k-500k"] that [getMarketCapTranche] gives to 600000 and the
    market cap 600000; for current [{T: 450000}] and previous
    [{T: 420000}] it sends none. *)
Theorem detect_bracket_crossing (T : string) :
  detect {[T := 600000%float]} {[T := Num 400000%float]}
    = [notifyTelegram T "100k-500k" 600000%float] ∧
  detect {[T := 450000%float]} {[T := Num 420000%float]} = [].
Proof. exact (crossing_600k_over_400k T). Qed.

(** C2 as stated fails: the notification for 600000 against 400000 does
    not carry the tranche ["500k-1M"]. *)
Lemma detect_bracket_crossing_counterexample :
  ¬ (detect {["T" := 600000%float]} {["T" := Num 400000%float]}
       = [notifyTelegram "T" "500k-1M" 600000%float] ∧
     detect {["T" := 450000%float]} {["T" := Num 420000%float]} = []).
Proof.
  intros [H _]. rewrite (proj1 (crossing_600k_over_400k "T")) in H.
  discriminate H.
Qed.

(** C3. A token of the current mapping that the previous mapping lacks
    gets a notification labelled ["unbonded-bonded"] with its current
    market cap, whatever tranche that cap has, and no other notification
    about it is sent; in particular [detect({T: 250000}, {})] is that one
    notification. *)
Theorem detect_new_token :
  (∀ (current : gmap string float) (previous : gmap string jsval) T cap,
     current !! T = Some cap →
     previous !! T = None →
     notifyTelegram T "unbonded-bonded" cap ∈ detect current previous ∧
     ∀ e, e ∈ detect current previous → msg_mint e = T →
          e = notifyTelegram T "unbonded-bonded" cap) ∧
  (∀ T : string,
     detect {[T := 250000%float]} ∅
       = [notifyTelegram T "unbonded-bonded" 250000%float]).
Proof.
  split.
  - intros current previous T cap Hcur Hprev. split.
    + apply elem_of_detect. exists T, cap. split; [done|].
      rewrite compareMint_new by done. apply list_elem_of_here.
    + intros e (mint & cap' & Hcur' & He)%elem_of_detect HT.
      destruct (compareMint_about _ _ _ _ He) as [Hm _].
      rewrite HT in Hm. subst mint.
      rewrite Hcur in Hcur'. injection Hcur' as <-.
      rewrite compareMint_new in He by done.
      by apply list_elem_of_singleton in He.
  - intros T. rewrite detect_singleton. by apply compareMint_new.
Qed.

Lemma detect_new_token_witness :
  notifyTelegram "T" "unbonded-bonded" 250000%float
    ∈ detect {["T" := 250000%float; "S" := 50000000%float]}
             {["S" := Num 50000000%float]}.
Proof.
  apply (proj1 detect_new_token); reflexivity.
Defined.

Lemma detect_unchanged (M : gmap string float) : detect M (Num <$> M) = [].
Proof.
  unfold detect. apply flat_map_nil. intros [mint cap] Hin. simpl.
  apply compareMint_unchanged. by apply elem_of_map_to_list.
Qed.

(** C4. Comparing a mapping with itself sends no notification. *)
Theorem detect_same_mapping (M : gmap string float) :
  detect M (Num <$> M) = [].
Proof. exact (detect_unchanged M). Qed.

(** C5. Only the properties of the current mapping are visited: with an
    empty current mapping nothing is sent, whatever the previous mapping
    holds; in general no notification is about a token that the current
    mapping lacks. *)
Theorem detect_dropped_token :
  (∀ previous : gmap string jsval, detect ∅ previous = []) ∧
  (∀ T : string, detect ∅ {[T := Num 10000%float]} = []) ∧
  (∀ (current : gmap string float) (previous : gmap string jsval) T e,
     current !! T = None →
     e ∈ detect current previous → msg_mint e ≠ T).
Proof.
  split; [exact detect_empty_current|].
  split; [intros T; apply detect_empty_current|].
  intros current previous T e Hcur (mint & cap & Hcur' & He)%elem_of_detect HT.
  destruct (compareMint_about _ _ _ _ He) as [Hm _].
  rewrite HT in Hm. subst mint. by rewrite Hcur in Hcur'.
Qed.

Lemma detect_dropped_token_witness :
  Forall (λ e, msg_mint e ≠ "T")
         (detect {["S" := 600000%float]}
                 {["S" := Num 400000%float; "T" := Num 10000%float]}).
Proof.
  apply Forall_forall. intros e.
  apply (proj2 (proj2 detect_dropped_token)). reflexivity.
Defined.

(** ** The snapshot file *)

Lemma SerializeJSONNumber_marketCap x :
  isMarketCap x = true → SerializeJSONNumber x = Num x.
Proof.
  unfold isMarketCap, SerializeJSONNumber. by destruct (classify x).
Qed.

Example stringify_nan_reads_null :
  loadPrevious (savePrevious {["T" := nan]}) = Some {["T" := Null]}.
Proof. simpl. by rewrite map_fmap_singleton. Qed.

Example stringify_infinity_reads_null :
  loadPrevious (savePrevious {["T" := infinity]}) = Some {["T" := Null]}.
Proof. simpl. by rewrite map_fmap_singleton. Qed.

Lemma load_after_save (M : gmap string float) :
  (∀ mint cap, M !! mint = Some cap → isMarketCap cap = true) →
  loadPrevious (savePrevious M) = Some (Num <$> M).
Proof.
  intros Hvalid. simpl. f_equal. apply map_eq. intros mint.
  rewrite !lookup_fmap.
  destruct (M !! mint) as [cap|] eqn:Hm; simpl; [|done].
  f_equal. apply SerializeJSONNumber_marketCap. by apply (Hvalid mint).
Qed.

(** C7. Writing a mapping of market caps (non-negative finite numbers)
    and reading the file back gives the same mapping; the empty mapping
    included. *)
Theorem snapshot_roundtrip :
  loadPrevious (savePrevious ∅) = Some ∅ ∧
  ∀ M : gmap string float,
    (∀ mint cap, M !! mint = Some cap → isMarketCap cap = true) →
    loadPrevious (savePrevious M) = Some (Num <$> M).
Proof.
  split.
  - simpl. by rewrite fmap_empty.
  - exact load_after_save.
Qed.

Lemma snapshot_roundtrip_witness :
  loadPrevious (savePrevious {["A" := 50000%float; "B" := 2000000%float]})
    = Some (Num <$> {["A" := 50000%float; "B" := 2000000%float]}).
Proof.
  apply (proj2 snapshot_roundtrip). intros mint cap.
  rewrite lookup_insert. case_decide.
  - by intros [= <-].
  - rewrite lookup_singleton. case_decide; [by intros [= <-]|done].
Defined.

(** C8. Without a snapshot file the previous market caps are the empty
    mapping and nothing throws: [trackMarketCapChanges] compares the
    current mapping with the empty one, then writes the file. *)
Theorem first_run_loads_empty :
  loadPrevious None = Some ∅ ∧
  ∀ (current : gmap string float) (w : world),
    snapshot_file w = None →
    trackMarketCapChanges current w
      = Some {| snapshot_file := savePrevious current;
                unbonded_csv := unbonded_csv w;
                telegram := telegram w ++ detect current ∅ |}.
Proof.
  split; [reflexivity|].
  intros current w Hfile. unfold trackMarketCapChanges. by rewrite Hfile.
Qed.

Lemma first_run_loads_empty_witness :
  trackMarketCapChanges {["A" := 50000%float]} (World None [] [])
    = Some (World (savePrevious {["A" := 50000%float]}) []
                  ([] ++ detect {["A" := 50000%float]} ∅)).
Proof.
  apply (proj2 first_run_loads_empty). reflexivity.
Defined.

(** Two runs of [trackMarketCapChanges] on the same market caps: the
    second one reads what the first one wrote and stays silent. *)
Lemma second_pass_is_quiet (M : gmap string float) (w : world) :
  (∀ mint cap, M !! mint = Some cap → isMarketCap cap = true) →
  snapshot_file w = savePrevious M →
  trackMarketCapChanges M w
    = Some {| snapshot_file := savePrevious M;
              unbonded_csv := unbonded_csv w;
              telegram := telegram w |}.
Proof.
  intros Hvalid Hfile. unfold trackMarketCapChanges.
  rewrite Hfile, (load_after_save M Hvalid). simpl.
  by rewrite detect_unchanged, app_nil_r.
Qed.

(** A market cap that is not a number is written as [null], which the
    next run reads as a cap below 100,000: the token is notified again. *)
Example nan_is_notified_again :
  trackMarketCapChanges {["T" := nan]} (World (savePrevious {["T" := nan]}) [] [])
    = Some (World (savePrevious {["T" := nan]}) []
                  [notifyTelegram "T" "10M-20M" nan]).
Proof. vm_compute. reflexivity. Qed.

(** The scenario of two consecutive runs: [A] at 50,000 and [B] at
    2,000,000 with no snapshot, then [A] at 150,000 and [B] unchanged. *)
Example two_runs_first :
  trackMarketCapChanges {["A" := 50000%float; "B" := 2000000%float]}
                        (World None [] [])
    = Some (World (Some (JsonObject {["A" := Num 50000%float;
                                      "B" := Num 2000000%float]})) []
                  [notifyTelegram "A" "unbonded-bonded" 50000%float;
                   notifyTelegram "B" "unbonded-bonded" 2000000%float]).
Proof. vm_compute. reflexivity. Qed.

Example two_runs_second :
  trackMarketCapChanges {["A" := 150000%float; "B" := 2000000%float]}
    (World (Some (JsonObject {["A" := Num 50000%float;
                               "B" := Num 2000000%float]})) [] [])
    = Some (World (Some (JsonObject {["A" := Num 150000%float;
                                      "B" := Num 2000000%float]})) []
                  [notifyTelegram "A" "0-100k" 150000%float]).
Proof. vm_compute. reflexivity. Qed.

(** ** [chunkArray] *)

Local Open Scope nat_scope.

Lemma chunkLoop_concat {A} (array : list A) size fuel : ∀ i result,
  0 < size →
  length array - i ≤ fuel →
  concat result = take i array →
  concat (chunkLoop fuel array size i result) = array.
Proof.
  induction fuel as [|fuel IH]; intros i result Hsize Hfuel Hres; simpl.
  - rewrite Hres. apply take_ge. lia.
  - destruct (Nat.ltb_spec i (length array)) as [Hlt|Hge].
    + apply IH; [done|lia|].
      rewrite concat_app, Hres. simpl. rewrite app_nil_r. unfold slice.
      replace (i + size - i) with size by lia.
      apply take_take_drop.
    + rewrite Hres. apply take_ge. lia.
Qed.

Lemma chunkArray_concat {A} (array : list A) size :
  0 < size → concat (chunkArray array size) = array.
Proof.
  intros Hsize. unfold chunkArray. apply chunkLoop_concat; [done|lia|done].
Qed.

Lemma elem_of_chunkArray {A} (array : list A) size x :
  0 < size →
  x ∈ array ↔ ∃ batch, batch ∈ chunkArray array size ∧ x ∈ batch.
Proof.
  intros Hsize.
  rewrite <- (chunkArray_concat array size Hsize) at 1.
  rewrite list_elem_of_In, in_concat.
  split; intros (batch & Hb & Hx); exists batch;
    by rewrite ?list_elem_of_In in *.
Qed.

Lemma chunkArray_nil {A} size : chunkArray (@nil A) size = [].
Proof. reflexivity. Qed.

(** ** The batch loop *)

Lemma classifyMint_priceOf e prices t mint :
  classifyMint e prices t mint =
  match priceOf e prices mint with
  | Some marketCap =>
      Tally (bondedCoins t ++ [(mint, marketCap)]) (unbondedCoins t)
            (<[mint := marketCap]> (currentMarketCaps t))
  | None =>
      Tally (bondedCoins t) (unbondedCoins t ++ [mint]) (currentMarketCaps t)
  end.
Proof.
  unfold classifyMint, priceOf.
  destruct (prices !! mint) as [priceData|]; simpl; [|done].
  by destruct (truthy priceData).
Qed.

Section Batch.
Variable e : env.
Variable prices : gmap string json_scalar.

Let step := classifyMint e prices.

Lemma batch_caps_origin batch : ∀ t mint cap,
  currentMarketCaps (foldl step t batch) !! mint = Some cap →
  currentMarketCaps t !! mint = Some cap ∨
  (mint ∈ batch ∧ priceOf e prices mint = Some cap).
Proof.
  induction batch as [|m batch IH] using rev_ind; intros t mint cap; simpl.
  - by left.
  - rewrite foldl_snoc. unfold step at 1. rewrite classifyMint_priceOf.
    destruct (priceOf e prices m) as [c|] eqn:Hm; simpl.
    + rewrite lookup_insert. case_decide as Heq.
      * intros [= <-]. subst m. right. split; [|done].
        apply elem_of_app. right. apply list_elem_of_here.
      * intros [?|[? ?]]%IH; [by left|right]. split; [|done].
        apply elem_of_app. by left.
    + intros [?|[? ?]]%IH; [by left|right]. split; [|done].
      apply elem_of_app. by left.
Qed.

Lemma batch_caps_kept batch : ∀ t mint,
  is_Some (currentMarketCaps t !! mint) →
  is_Some (currentMarketCaps (foldl step t batch) !! mint).
Proof.
  induction batch as [|m batch IH] using rev_ind; intros t mint Hs; simpl.
  - done.
  - rewrite foldl_snoc. unfold step at 1. rewrite classifyMint_priceOf.
    destruct (priceOf e prices m) as [c|]; simpl; [|by apply IH].
    rewrite lookup_insert. case_decide; [done|by apply IH].
Qed.

Lemma batch_caps_priced batch : ∀ t mint cap,
  mint ∈ batch →
  priceOf e prices mint = Some cap →
  currentMarketCaps (foldl step t batch) !! mint = Some cap.
Proof.
  induction batch as [|m batch IH] using rev_ind; intros t mint cap Hin Hp.
  - by apply elem_of_nil in Hin.
  - rewrite foldl_snoc. unfold step at 1. rewrite classifyMint_priceOf.
    destruct (decide (m = mint)) as [->|Hne].
    + rewrite Hp. simpl. apply lookup_insert_eq.
    + apply elem_of_app in Hin as [Hin|Hin%list_elem_of_singleton];
        [|congruence].
      destruct (priceOf e prices m) as [c|]; simpl.
      * rewrite lookup_insert_ne by done. by apply IH.
      * by apply IH.
Qed.

Lemma batch_unbonded_kept batch : ∀ t mint,
  mint ∈ unbondedCoins t → mint ∈ unbondedCoins (foldl step t batch).
Proof.
  induction batch as [|m batch IH] using rev_ind; intros t mint Hin; simpl.
  - done.
  - rewrite foldl_snoc. unfold step at 1. rewrite classifyMint_priceOf.
    destruct (priceOf e prices m) as [c|]; simpl; [by apply IH|].
    apply elem_of_app. left. by apply IH.
Qed.

Lemma batch_unbonded_unpriced batch : ∀ t mint,
  mint ∈ batch →
  priceOf e prices mint = None →
  mint ∈ unbondedCoins (foldl step t batch).
Proof.
  induction batch as [|m batch IH] using rev_ind; intros t mint Hin Hp.
  - by apply elem_of_nil in Hin.
  - rewrite foldl_snoc. unfold step at 1. rewrite classifyMint_priceOf.
    apply elem_of_app in Hin as [Hin|Hin%list_elem_of_singleton].
    + destruct (priceOf e prices m) as [c|]; simpl; [by apply IH|].
      apply elem_of_app. left. by apply IH.
    + subst m. rewrite Hp. simpl.
      apply elem_of_app. right. apply list_elem_of_here.
Qed.
End Batch.

Lemma batchQuote_fetched e n batch prices mint :
  fetchTokenPrices e n (String.concat "," batch) = Some prices →
  batchQuote e n batch mint = priceOf e prices mint.
Proof. intros H. unfold batchQuote. by rewrite H. Qed.

(** The loop over the batches, by induction on the batches still to be
    priced; the [i]-th of them is the subject of request [n + i]. *)

Lemma priceBatches_caps_origin e batches : ∀ n t t' mint cap,
  priceBatches e n batches t = Some t' →
  currentMarketCaps t' !! mint = Some cap →
  currentMarketCaps t !! mint = Some cap ∨
  ∃ i batch, batches !! i = Some batch ∧ mint ∈ batch ∧
             batchQuote e (n + i) batch mint = Some cap.
Proof.
  induction batches as [|batch rest IH]; simpl; intros n t t' mint cap Hrun Hcap.
  - injection Hrun as <-. by left.
  - assert (Hrest : ∀ t0, priceBatches e (S n) rest t0 = Some t' →
              currentMarketCaps t0 !! mint = Some cap ∨
              ∃ i b, (batch :: rest) !! i = Some b ∧ mint ∈ b ∧
                     batchQuote e (n + i) b mint = Some cap).
    { intros t0 Ht0.
      destruct (IH _ _ _ _ _ Ht0 Hcap) as [Hc|(i & b & Hb & Hm & Hq)];
        [by left|right].
      exists (S i), b. split; [done|]. split; [done|].
      by replace (n + S i) with (S n + i) by lia. }
    destruct (fetchTokenPrices e n (String.concat "," batch)) as [prices|] eqn:Hf.
    + destruct (Hrest _ Hrun) as [Hc|?]; [|by right].
      apply batch_caps_origin in Hc as [?|[Hin Hp]]; [by left|right].
      exists 0, batch. split; [done|]. split; [done|].
      rewrite Nat.add_0_r. by rewrite (batchQuote_fetched _ _ _ _ _ Hf).
    + destruct batch; [|done]. by apply Hrest.
Qed.

Lemma priceBatches_caps_kept e batches : ∀ n t t' mint,
  priceBatches e n batches t = Some t' →
  is_Some (currentMarketCaps t !! mint) →
  is_Some (currentMarketCaps t' !! mint).
Proof.
  induction batches as [|batch rest IH]; simpl; intros n t t' mint Hrun Hs.
  - by injection Hrun as <-.
  - destruct (fetchTokenPrices e n (String.concat "," batch)) as [prices|].
    + apply (IH _ _ _ _ Hrun). by apply batch_caps_kept.
    + destruct batch; [|done]. by apply (IH _ _ _ _ Hrun).
Qed.

Lemma priceBatches_caps_priced e batches : ∀ n t t' i batch mint,
  priceBatches e n batches t = Some t' →
  batches !! i = Some batch →
  mint ∈ batch →
  is_Some (batchQuote e (n + i) batch mint) →
  is_Some (currentMarketCaps t' !! mint).
Proof.
  induction batches as [|b rest IH]; simpl;
    intros n t t' i batch mint Hrun Hb Hm Hq; [done|].
  destruct i as [|i]; simpl in Hb.
  - injection Hb as ->. rewrite Nat.add_0_r in Hq. destruct Hq as [cap Hq].
    destruct (fetchTokenPrices e n (String.concat "," batch)) as [prices|] eqn:Hf.
    + apply (priceBatches_caps_kept _ _ _ _ _ _ Hrun). exists cap.
      apply batch_caps_priced; [done|].
      by rewrite <- (batchQuote_fetched _ _ _ _ _ Hf).
    + unfold batchQuote in Hq. by rewrite Hf in Hq.
  - replace (n + S i) with (S n + i) in Hq by lia.
    destruct (fetchTokenPrices e n (String.concat "," b)) as [prices|].
    + by apply (IH _ _ _ _ _ _ Hrun Hb).
    + destruct b; [|done]. by apply (IH _ _ _ _ _ _ Hrun Hb).
Qed.

Lemma priceBatches_unbonded_kept e batches : ∀ n t t' mint,
  priceBatches e n batches t = Some t' →
  mint ∈ unbondedCoins t →
  mint ∈ unbondedCoins t'.
Proof.
  induction batches as [|batch rest IH]; simpl; intros n t t' mint Hrun Hin.
  - by injection Hrun as <-.
  - destruct (fetchTokenPrices e n (String.concat "," batch)) as [prices|].
    + apply (IH _ _ _ _ Hrun). by apply batch_unbonded_kept.
    + destruct batch; [|done]. by apply (IH _ _ _ _ Hrun).
Qed.

Lemma priceBatches_unbonded_unpriced e batches : ∀ n t t' i batch mint,
  priceBatches e n batches t = Some t' →
  batches !! i = Some batch →
  mint ∈ batch →
  batchQuote e (n + i) batch mint = None →
  mint ∈ unbondedCoins t'.
Proof.
  induction batches as [|b rest IH]; simpl;
    intros n t t' i batch mint Hrun Hb Hm Hq; [done|].
  destruct i as [|i]; simpl in Hb.
  - injection Hb as ->. rewrite Nat.add_0_r in Hq.
    destruct (fetchTokenPrices e n (String.concat "," batch)) as [prices|] eqn:Hf.
    + apply (priceBatches_unbonded_kept _ _ _ _ _ _ Hrun).
      apply batch_unbonded_unpriced; [done|].
      by rewrite <- (batchQuote_fetched _ _ _ _ _ Hf).
    + destruct batch; [by apply elem_of_nil in Hm|done].
  - replace (n + S i) with (S n + i) in Hq by lia.
    destruct (fetchTokenPrices e n (String.concat "," b)) as [prices|].
    + by apply (IH _ _ _ _ _ _ Hrun Hb).
    + destruct b; [|done]. by apply (IH _ _ _ _ _ _ Hrun Hb).
Qed.

Lemma priceBatches_completes e batches : ∀ n t,
  (∀ i batch, batches !! i = Some batch → batchAnswered e (n + i) batch) →
  is_Some (priceBatches e n batches t).
Proof.
  induction batches as [|batch rest IH]; simpl; intros n t Hans.
  - by eexists.
  - destruct (Hans 0 batch) as [prices Hf]; [done|].
    rewrite Nat.add_0_r in Hf. rewrite Hf. apply IH. intros i b Hb.
    replace (S n + i) with (n + S i) by lia. by apply Hans.
Qed.

(** ** One run *)

(** A run that reaches [trackMarketCapChanges] and returns from it. *)
Lemma run_tracks e w tokenAccounts :
  getParsedTokenAccountsByOwner e = Some tokenAccounts →
  heldMints tokenAccounts ≠ [] →
  (∀ i batch, chunkArray (heldMints tokenAccounts) 99 !! i = Some batch →
              batchAnswered e i batch) →
  snapshot_file w ≠ Some Unparsable →
  ∃ t previousData,
    priceBatches e 0 (chunkArray (heldMints tokenAccounts) 99) (Tally [] [] ∅)
      = Some t ∧
    loadPrevious (snapshot_file w) = Some previousData ∧
    getAllTokenBalances e w
      = {| snapshot_file := savePrevious (currentMarketCaps t);
           unbonded_csv := unbondedCoins t;
           telegram :=
             (telegram w ++ detect (currentMarketCaps t) previousData)%list |}.
Proof.
  intros Hrpc Hheld Hans Hfile.
  destruct (priceBatches_completes e _ 0 (Tally [] [] ∅) Hans) as [t Ht].
  assert (∃ previousData, loadPrevious (snapshot_file w) = Some previousData)
    as [previousData Hload].
  { destruct (snapshot_file w) as [[props|]|]; simpl; by eauto. }
  exists t, previousData. split; [done|]. split; [done|].
  unfold getAllTokenBalances. rewrite Hrpc.
  destruct (heldMints tokenAccounts) as [|m ms] eqn:Hm; [done|]. simpl.
  rewrite Ht. unfold trackMarketCapChanges. simpl.
  by rewrite Hload.
Qed.

(** A run that finds no token with a positive balance changes nothing. *)
Lemma run_without_tokens e w tokenAccounts :
  getParsedTokenAccountsByOwner e = Some tokenAccounts →
  heldMints tokenAccounts = [] →
  getAllTokenBalances e w = w.
Proof.
  intros Hrpc Hheld. unfold getAllTokenBalances.
  rewrite Hrpc. by rewrite Hheld.
Qed.

Lemma fetchTokenPrices_failed e n mintList :
  axios_get e n (RAYDIUM_API_URL ++ "?mints=" ++ mintList)%string = HttpFailed →
  fetchTokenPrices e n mintList = Some ∅.
Proof. intros H. unfold fetchTokenPrices. by rewrite H. Qed.

Lemma batchQuote_failed e n batch mint :
  fetchTokenPrices e n (String.concat "," batch) = Some ∅ →
  batchQuote e n batch mint = None.
Proof.
  intros H. rewrite (batchQuote_fetched _ _ _ _ _ H).
  unfold priceOf. by rewrite lookup_empty.
Qed.

(** C6 (as amended). After a run that reaches the tracking step (the
    token accounts are fetched, some token has a positive balance, every
    batch gets a usable price object, and the previous snapshot is absent
    or parses) the snapshot file holds exactly the tokens priced in this
    run, each with the written form of a market cap quoted in this run,
    whatever the previous snapshot held: an unpriced token is never
    written, and a token of the previous snapshot that is unpriced or
    absent in this run is absent from the new snapshot. *)
Theorem snapshot_after_run e w tokenAccounts :
  getParsedTokenAccountsByOwner e = Some tokenAccounts →
  heldMints tokenAccounts ≠ [] →
  (∀ i batch, chunkArray (heldMints tokenAccounts) 99 !! i = Some batch →
              batchAnswered e i batch) →
  snapshot_file w ≠ Some Unparsable →
  ∃ props,
    snapshot_file (getAllTokenBalances e w) = Some (JsonObject props) ∧
    (∀ mint, is_Some (props !! mint) ↔
       ∃ i batch, chunkArray (heldMints tokenAccounts) 99 !! i = Some batch ∧
                  mint ∈ batch ∧ is_Some (batchQuote e i batch mint)) ∧
    (∀ mint v, props !! mint = Some v →
       mint ∈ heldMints tokenAccounts ∧
       ∃ i batch cap,
         chunkArray (heldMints tokenAccounts) 99 !! i = Some batch ∧
         mint ∈ batch ∧
         batchQuote e i batch mint = Some cap ∧
         v = SerializeJSONNumber cap).
Proof.
  intros Hrpc Hheld Hans Hfile.
  destruct (run_tracks e w tokenAccounts Hrpc Hheld Hans Hfile)
    as (t & previousData & Ht & _ & ->).
  exists (SerializeJSONNumber <$> currentMarketCaps t).
  split; [reflexivity|].
  assert (Horigin : ∀ mint cap, currentMarketCaps t !! mint = Some cap →
            ∃ i batch,
              chunkArray (heldMints tokenAccounts) 99 !! i = Some batch ∧
              mint ∈ batch ∧ batchQuote e i batch mint = Some cap).
  { intros mint cap Hcap.
    destruct (priceBatches_caps_origin _ _ _ _ _ _ _ Ht Hcap) as [Hc|Hb]; [|done].
    simpl in Hc. by rewrite lookup_empty in Hc. }
  split.
  - intros mint. rewrite lookup_fmap, fmap_is_Some. split.
    + intros [cap Hcap]. destruct (Horigin _ _ Hcap) as (i & batch & ? & ? & Hq).
      exists i, batch. by rewrite Hq.
    + intros (i & batch & Hb & Hm & Hq).
      by apply (priceBatches_caps_priced _ _ _ _ _ _ _ _ Ht Hb Hm).
  - intros mint v. rewrite lookup_fmap.
    intros (cap & Hcap & ->)%fmap_Some.
    destruct (Horigin _ _ Hcap) as (i & batch & Hb & Hm & Hq). split.
    + apply (elem_of_chunkArray _ 99); [lia|]. exists batch.
      split; [|done]. by apply list_elem_of_lookup_2 with i.
    + by exists i, batch, cap.
Qed.

Lemma snapshot_after_run_witness :
  ∃ props,
    snapshot_file (getAllTokenBalances pair_env (World None [] []))
      = Some (JsonObject props) ∧
    (∀ mint, is_Some (props !! mint) ↔
       ∃ i batch, chunkArray (heldMints pair_accounts) 99 !! i = Some batch ∧
                  mint ∈ batch ∧ is_Some (batchQuote pair_env i batch mint)) ∧
    (∀ mint v, props !! mint = Some v →
       mint ∈ heldMints pair_accounts ∧
       ∃ i batch cap,
         chunkArray (heldMints pair_accounts) 99 !! i = Some batch ∧
         mint ∈ batch ∧
         batchQuote pair_env i batch mint = Some cap ∧
         v = SerializeJSONNumber cap).
Proof.
  apply (snapshot_after_run pair_env (World None [] []) pair_accounts).
  - reflexivity.
  - vm_compute. discriminate.
  - intros i batch _. unfold batchAnswered, fetchTokenPrices. simpl. by eexists.
  - simpl. discriminate.
Defined.

Example pair_run :
  getAllTokenBalances pair_env (World None [] [])
    = World (Some (JsonObject {["A" := Num 500000000%float]})) ["B"]
            [notifyTelegram "A" "unbonded-bonded" 500000000%float].
Proof. vm_compute. reflexivity. Qed.

(** C6 as stated fails: the wallet's only token has a zero balance, so
    the run prices nothing and its mapping is empty, yet the snapshot
    still lists the token afterwards. *)
Lemma snapshot_after_run_counterexample :
  heldMints emptied_accounts = [] ∧
  snapshot_file (getAllTokenBalances emptied_env emptied_world)
    = Some (JsonObject {["T" := Num 10000%float]}) ∧
  snapshot_file (getAllTokenBalances emptied_env emptied_world)
    ≠ savePrevious ∅.
Proof.
  assert (Hheld : heldMints emptied_accounts = []) by reflexivity.
  rewrite (run_without_tokens emptied_env emptied_world emptied_accounts
             eq_refl Hheld).
  split; [done|]. split; [reflexivity|].
  simpl. unfold savePrevious, JSON_stringify. rewrite fmap_empty.
  intros [=].
Qed.

(** C9 (as amended). When the price request of a batch fails,
    [fetchTokenPrices] returns the empty object for it; every token of
    the batch is listed as unbonded for the run; and, the other batches
    being answered and the previous snapshot readable, the run goes on to
    the comparison and writes the snapshot.  A token of the failed batch
    is in that snapshot only if it is also listed in another batch whose
    response prices it. *)
Theorem failed_batch_degrades e w tokenAccounts i batch :
  getParsedTokenAccountsByOwner e = Some tokenAccounts →
  chunkArray (heldMints tokenAccounts) 99 !! i = Some batch →
  axios_get e i (RAYDIUM_API_URL ++ "?mints=" ++ String.concat "," batch)%string
    = HttpFailed →
  (∀ j b, chunkArray (heldMints tokenAccounts) 99 !! j = Some b →
          batchAnswered e j b) →
  snapshot_file w ≠ Some Unparsable →
  fetchTokenPrices e i (String.concat "," batch) = Some ∅ ∧
  ∃ current previousData,
    loadPrevious (snapshot_file w) = Some previousData ∧
    snapshot_file (getAllTokenBalances e w) = savePrevious current ∧
    telegram (getAllTokenBalances e w)
      = (telegram w ++ detect current previousData)%list ∧
    (∀ mint, mint ∈ batch → mint ∈ unbonded_csv (getAllTokenBalances e w)) ∧
    (∀ mint, mint ∈ batch → is_Some (current !! mint) →
       ∃ j b, chunkArray (heldMints tokenAccounts) 99 !! j = Some b ∧
              j ≠ i ∧ mint ∈ b ∧ is_Some (batchQuote e j b mint)).
Proof.
  intros Hrpc Hbatch Hfail Hans Hfile.
  pose proof (fetchTokenPrices_failed _ _ _ Hfail) as Hempty.
  split; [done|].
  assert (Hheld : heldMints tokenAccounts ≠ []).
  { intros Hnil. by rewrite Hnil in Hbatch. }
  destruct (run_tracks e w tokenAccounts Hrpc Hheld Hans Hfile)
    as (t & previousData & Ht & Hload & ->).
  exists (currentMarketCaps t), previousData. simpl.
  split; [done|]. split; [done|]. split; [done|]. split.
  - intros mint Hm.
    apply (priceBatches_unbonded_unpriced _ _ _ _ _ _ _ _ Ht Hbatch Hm).
    by apply batchQuote_failed.
  - intros mint Hm [cap Hcap].
    destruct (priceBatches_caps_origin _ _ _ _ _ _ _ Ht Hcap)
      as [Hc|(j & b & Hb & Hmb & Hq)].
    + simpl in Hc. by rewrite lookup_empty in Hc.
    + exists j, b. simpl in Hq. split; [done|]. split.
      * intros ->. rewrite Hbatch in Hb. injection Hb as <-.
        by rewrite (batchQuote_failed _ _ _ _ Hempty) in Hq.
      * split; [done|]. by rewrite Hq.
Qed.

Lemma failed_batch_degrades_witness :
  fetchTokenPrices offline_env 0 (String.concat "," ["A"; "B"]) = Some ∅ ∧
  ∃ current previousData,
    loadPrevious None = Some previousData ∧
    snapshot_file (getAllTokenBalances offline_env (World None [] []))
      = savePrevious current ∧
    telegram (getAllTokenBalances offline_env (World None [] []))
      = ([] ++ detect current previousData)%list ∧
    (∀ mint, mint ∈ ["A"; "B"] →
       mint ∈ unbonded_csv (getAllTokenBalances offline_env (World None [] []))) ∧
    (∀ mint, mint ∈ ["A"; "B"] → is_Some (current !! mint) →
       ∃ j b, chunkArray (heldMints pair_accounts) 99 !! j = Some b ∧
              j ≠ 0 ∧ mint ∈ b ∧ is_Some (batchQuote offline_env j b mint)).
Proof.
  apply (failed_batch_degrades offline_env (World None [] []) pair_accounts).
  - reflexivity.
  - reflexivity.
  - reflexivity.
  - intros j b _. unfold batchAnswered, fetchTokenPrices. simpl. by eexists.
  - simpl. discriminate.
Defined.

Example offline_run :
  getAllTokenBalances offline_env (World None [] [])
    = World (Some (JsonObject ∅)) ["A"; "B"] [].
Proof. vm_compute. reflexivity. Qed.

(** C9 as stated fails: the request for the first batch fails and [T] is
    in that batch, but [T] is listed again in the second batch, whose
    response prices it, so the snapshot written by the run holds [T]. *)
Lemma failed_batch_degrades_counterexample :
  chunkArray (heldMints twice_accounts) 99 !! 0 = Some ("T" :: repeat "U" 98) ∧
  axios_get twice_env 0
    (RAYDIUM_API_URL ++ "?mints=" ++ String.concat "," ("T" :: repeat "U" 98))%string
    = HttpFailed ∧
  "T" ∈ "T" :: repeat "U" 98 ∧
  snapshot_file (getAllTokenBalances twice_env (World None [] []))
    = Some (JsonObject {["T" := Num 250000000%float]}).
Proof.
  split; [reflexivity|].
  split; [reflexivity|].
  split; [apply list_elem_of_here|].
  vm_compute. reflexivity.
Qed.

(** * Further properties of the code *)

(** ** [chunkArray]: the batches one by one *)

Lemma chunkLoop_lookup {A} (array : list A) size fuel : ∀ k result,
  0 < size →
  length array - k * size ≤ fuel →
  length result = k →
  (k = 0 ∨ (k - 1) * size < length array) →
  (∀ j, j < k → result !! j = Some (slice array (j * size) (j * size + size))) →
  ∀ j, chunkLoop fuel array size (k * size) result !! j
       = if j * size <? length array
         then Some (slice array (j * size) (j * size + size))
         else None.
Proof.
  assert (Hdone : ∀ k (result : list (list A)),
            0 < size → length array ≤ k * size → length result = k →
            (k = 0 ∨ (k - 1) * size < length array) →
            (∀ j, j < k →
               result !! j = Some (slice array (j * size) (j * size + size))) →
            ∀ j, result !! j
                 = if j * size <? length array
                   then Some (slice array (j * size) (j * size + size))
                   else None).
  { intros k result Hsize Hend Hlen Hlast Hres j.
    destruct (Nat.ltb_spec (j * size) (length array)) as [Hj|Hj].
    - apply Hres. nia.
    - apply lookup_ge_None. nia. }
  induction fuel as [|fuel IH]; intros k result Hsize Hfuel Hlen Hlast Hres;
    cbn [chunkLoop].
  - apply (Hdone k); [done|lia|done..].
  - destruct (Nat.ltb_spec (k * size) (length array)) as [Hlt|Hge].
    + replace (k * size + size) with (S k * size) by lia.
      apply IH; [done|simpl; nia| |right; simpl; nia|].
      * rewrite length_app. simpl. lia.
      * intros j Hj. destruct (decide (j = k)) as [->|Hne].
        -- rewrite lookup_app_r by lia.
           replace (k - length result) with 0 by lia. simpl.
           do 2 f_equal. lia.
        -- rewrite lookup_app_l by lia. apply Hres. lia.
    + by apply (Hdone k).
Qed.

Lemma chunkArray_lookup_slice {A} (array : list A) size j :
  0 < size →
  chunkArray array size !! j
  = if j * size <? length array
    then Some (take size (drop (j * size) array))
    else None.
Proof.
  intros Hsize. unfold chunkArray.
  rewrite (chunkLoop_lookup array size (length array) 0 [] Hsize);
    [|simpl; lia|done|by left|intros; lia].
  destruct (j * size <? length array); [|done].
  unfold slice. by replace (j * size + size - j * size) with size by lia.
Qed.

Lemma chunkArray_length_bounds {A} (array : list A) size :
  0 < size →
  length array ≤ length (chunkArray array size) * size ∧
  (length (chunkArray array size) = 0 ∨
   (length (chunkArray array size) - 1) * size < length array).
Proof.
  intros Hsize. split.
  - pose proof (chunkArray_lookup_slice array size
                  (length (chunkArray array size)) Hsize) as Hend.
    rewrite lookup_ge_None_2 in Hend by lia.
    destruct (Nat.ltb_spec (length (chunkArray array size) * size)
                           (length array)); [done|lia].
  - destruct (length (chunkArray array size)) as [|n] eqn:Hn; [by left|right].
    pose proof (chunkArray_lookup_slice array size n Hsize) as Hlast.
    destruct (lookup_lt_is_Some_2 (chunkArray array size) n) as [b Hb]; [lia|].
    rewrite Hb in Hlast.
    destruct (Nat.ltb_spec (n * size) (length array)); [|done].
    simpl. by rewrite Nat.sub_0_r.
Qed.

(** X1. For a positive size, the [j]-th batch is the slice of [size]
    elements that starts at index [j * size]; there is a [j]-th batch
    exactly when that index is inside the array. *)
Theorem chunkArray_batches {A} (array : list A) size j :
  0 < size →
  chunkArray array size !! j
  = if j * size <? length array
    then Some (take size (drop (j * size) array))
    else None.
Proof. apply chunkArray_lookup_slice. Qed.

Lemma chunkArray_batches_witness :
  chunkArray [10; 11; 12; 13; 14; 15; 16] 3 !! 2 = Some [16] ∧
  chunkArray [10; 11; 12; 13; 14; 15; 16] 3 !! 3 = None.
Proof.
  split.
  - apply (chunkArray_batches [10; 11; 12; 13; 14; 15; 16] 3 2). lia.
  - apply (chunkArray_batches [10; 11; 12; 13; 14; 15; 16] 3 3). lia.
Defined.

(** X2. For a positive size no batch is empty and none is longer than
    [size]; every batch but the last one has exactly [size] elements.
    With the size 99 of the script, a price request never lists more than
    99 mints. *)
Theorem chunkArray_batch_sizes {A} (array : list A) size j batch :
  0 < size →
  chunkArray array size !! j = Some batch →
  0 < length batch ≤ size ∧
  (S j < length (chunkArray array size) → length batch = size).
Proof.
  intros Hsize Hb.
  rewrite (chunkArray_lookup_slice array size j Hsize) in Hb.
  destruct (Nat.ltb_spec (j * size) (length array)) as [Hj|]; [|done].
  injection Hb as <-. rewrite length_take, length_drop. split; [lia|].
  intros Hnext.
  destruct (chunkArray_length_bounds array size Hsize) as [_ [H0|Hlast]]; [lia|].
  nia.
Qed.

Lemma chunkArray_batch_sizes_witness :
  0 < length [10; 11; 12] ≤ 3 ∧
  (1 < length (chunkArray [10; 11; 12; 13; 14; 15; 16] 3) →
   length [10; 11; 12] = 3).
Proof.
  apply (chunkArray_batch_sizes [10; 11; 12; 13; 14; 15; 16] 3 0 [10; 11; 12]).
  - lia.
  - reflexivity.
Defined.

(** X3. For a positive size the batches, one after the other, are the
    array itself: no element is lost, repeated or moved. *)
Theorem chunkArray_keeps_array {A} (array : list A) size :
  0 < size → concat (chunkArray array size) = array.
Proof. apply chunkArray_concat. Qed.

Lemma chunkArray_keeps_array_witness :
  concat (chunkArray ["a"; "b"; "c"; "d"; "e"] 2) = ["a"; "b"; "c"; "d"; "e"].
Proof. apply (chunkArray_keeps_array ["a"; "b"; "c"; "d"; "e"] 2). lia. Defined.

(** X4. For a positive size the number of batches is the length of the
    array divided by [size], rounded up. *)
Theorem chunkArray_count {A} (array : list A) size :
  0 < size →
  length (chunkArray array size) = (length array + size - 1) / size.
Proof.
  intros Hsize.
  destruct (chunkArray_length_bounds array size Hsize) as [Hup Hlow].
  apply (Nat.div_unique _ _ _
           (length array + size - 1 - size * length (chunkArray array size)));
    destruct Hlow as [H0|Hlast]; nia.
Qed.

Lemma chunkArray_count_witness :
  length (chunkArray (repeat "U" 100) 99) = (length (repeat "U" 100) + 99 - 1) / 99.
Proof. apply (chunkArray_count (repeat "U" 100) 99). lia. Defined.

(** ** [getMarketCapTranche]: order *)

Lemma SFleb_ltb_trans a b c :
  SFleb a b = true → SFltb b c = true → SFltb a c = true.
Proof. sf_order. Qed.

Lemma fle_lt_trans x y z :
  PrimFloat.leb x y = true → PrimFloat.ltb y z = true → PrimFloat.ltb x z = true.
Proof. rewrite leb_spec, !ltb_spec. apply SFleb_ltb_trans. Qed.

Ltac tranche_tests :=
  unfold getMarketCapTranche, js_lt; cbn [ToNumber];
  repeat match goal with
  | |- context [if PrimFloat.ltb ?a ?c then _ else _] =>
      destruct (PrimFloat.ltb a c) eqn:?; cbn iota
  end.

(** X5. The classification is monotone: when [x <= y], the label of [y]
    is the label of [x] or a later one in the order of the [return]
    statements.  (No NaN is involved: [x <= y] is false for it.) *)
Theorem getMarketCapTranche_monotone x y :
  PrimFloat.leb x y = true →
  trancheRank (getMarketCapTranche (Num x))
    ≤ trancheRank (getMarketCapTranche (Num y)).
Proof.
  intros Hxy. tranche_tests;
    first
      [ vm_compute; lia
      | exfalso;
        match goal with
        | Hy : PrimFloat.ltb y ?c = true, Hx : PrimFloat.ltb x ?c = false |- _ =>
            rewrite (fle_lt_trans x y c Hxy Hy) in Hx; discriminate Hx
        end ].
Qed.

Lemma getMarketCapTranche_monotone_witness :
  trancheRank (getMarketCapTranche (Num 400000%float))
    ≤ trancheRank (getMarketCapTranche (Num 600000%float)).
Proof. apply getMarketCapTranche_monotone. reflexivity. Defined.

(** ** The comparison loop: when a notification is sent *)

Lemma compareMint_cases previousData mint cap :
  compareMint previousData mint cap = [] ∨
  ∃ tranche, compareMint previousData mint cap = [notifyTelegram mint tranche cap].
Proof.
  unfold compareMint. destruct (previousData !! mint) as [p|]; [|by eauto].
  destruct (String.eqb _ _); by eauto.
Qed.

Lemma compareMint_nil previousData mint cap :
  compareMint previousData mint cap = [] ↔
  ∃ p, previousData !! mint = Some p ∧
       getMarketCapTranche (Num cap) = getMarketCapTranche p.
Proof.
  unfold compareMint. destruct (previousData !! mint) as [p|]; simpl.
  - destruct (String.eqb_spec (getMarketCapTranche (Num cap))
                              (getMarketCapTranche p)) as [Heq|Hne].
    + split; [by exists p|done].
    + split; [done|]. by intros (? & [= <-] & ?).
  - split; [done|]. by intros (? & ? & ?).
Qed.

Lemma detect_mints_sublist (current : gmap string float) previousData :
  msg_mint <$> detect current previousData `sublist_of` (map_to_list current).*1.
Proof.
  unfold detect. induction (map_to_list current) as [|[mint cap] l IH]; simpl.
  - constructor.
  - rewrite fmap_app.
    destruct (compareMint_cases previousData mint cap) as [->|[tranche ->]];
      simpl; by constructor.
Qed.

Lemma detect_nil (current : gmap string float) previousData :
  detect current previousData = [] ↔
  ∀ mint cap, current !! mint = Some cap →
    ∃ p, previousData !! mint = Some p ∧
         getMarketCapTranche (Num cap) = getMarketCapTranche p.
Proof.
  split.
  - intros Hnil mint cap Hcur. apply compareMint_nil.
    destruct (compareMint_cases previousData mint cap) as [?|[tranche Hc]];
      [done|].
    assert (notifyTelegram mint tranche cap ∈ detect current previousData) as Hin.
    { apply elem_of_detect. exists mint, cap. split; [done|].
      rewrite Hc. apply list_elem_of_here. }
    rewrite Hnil in Hin. by apply elem_of_nil in Hin.
  - intros Hsame. unfold detect. apply flat_map_nil. intros [mint cap] Hin.
    simpl. apply compareMint_nil. apply Hsame. by apply elem_of_map_to_list.
Qed.

(** X6. A notification is sent exactly when it carries a token of the
    current mapping with its current market cap and either the token is
    not in the previous mapping and the label is ["unbonded-bonded"], or
    it is, the label is the tranche of the current cap, and that tranche
    differs from the tranche of the previous cap. *)
Theorem detect_sends_iff (current : gmap string float)
    (previousData : gmap string jsval) (n : notification) :
  n ∈ detect current previousData ↔
  current !! msg_mint n = Some (msg_marketCap n) ∧
  match previousData !! msg_mint n with
  | None => msg_tranche n = "unbonded-bonded"
  | Some previousCap =>
      msg_tranche n = getMarketCapTranche (Num (msg_marketCap n)) ∧
      getMarketCapTranche (Num (msg_marketCap n))
        ≠ getMarketCapTranche previousCap
  end.
Proof.
  rewrite elem_of_detect. destruct n as [mint tranche cap]. simpl. split.
  - intros (mint' & cap' & Hcur & Hn).
    destruct (compareMint_about _ _ _ _ Hn) as [Hm Hc]. simpl in Hm, Hc.
    subst mint' cap'. split; [done|].
    unfold compareMint in Hn.
    destruct (previousData !! mint) as [p|].
    + destruct (String.eqb_spec (getMarketCapTranche (Num cap))
                                (getMarketCapTranche p)) as [Heq|Hne].
      * by apply elem_of_nil in Hn.
      * apply list_elem_of_singleton in Hn. by injection Hn as ->.
    + apply list_elem_of_singleton in Hn. by injection Hn as ->.
  - intros [Hcur Hprev]. exists mint, cap. split; [done|].
    unfold compareMint. destruct (previousData !! mint) as [p|].
    + destruct Hprev as [-> Hne].
      destruct (String.eqb_spec (getMarketCapTranche (Num cap))
                                (getMarketCapTranche p)); [done|].
      apply list_elem_of_here.
    + subst tranche. apply list_elem_of_here.
Qed.

(** X7. At most one notification is sent per token of the current
    mapping: the mints of the notifications are pairwise distinct and
    there are at most as many notifications as tokens. *)
Theorem detect_once_per_token (current : gmap string float)
    (previousData : gmap string jsval) :
  NoDup (msg_mint <$> detect current previousData) ∧
  length (detect current previousData) ≤ size current.
Proof.
  pose proof (detect_mints_sublist current previousData) as Hsub. split.
  - apply (sublist_NoDup _ _ (NoDup_fst_map_to_list current) Hsub).
  - apply sublist_length in Hsub.
    by rewrite !length_fmap, length_map_to_list in Hsub.
Qed.

(** X8. Nothing is sent exactly when every token of the current mapping
    is in the previous mapping with a cap of the same tranche. *)
Theorem detect_silent_iff (current : gmap string float)
    (previousData : gmap string jsval) :
  detect current previousData = [] ↔
  ∀ mint cap, current !! mint = Some cap →
    ∃ previousCap, previousData !! mint = Some previousCap ∧
         getMarketCapTranche (Num cap) = getMarketCapTranche previousCap.
Proof. apply detect_nil. Qed.

(** ** The snapshot file: what is read back *)

Lemma classify_Prim2SF x :
  (classify x = NaN → Prim2SF x = S754_nan) ∧
  (classify x = PInf → Prim2SF x = S754_infinity false) ∧
  (classify x = NInf → Prim2SF x = S754_infinity true) ∧
  (classify x = NZero → Prim2SF x = S754_zero true).
Proof.
  rewrite classify_spec. unfold SF64classify, SFclassify.
  destruct (Prim2SF x) as [[]|[]| |[] m e]; try destruct (Z.eqb _ _);
    repeat split; congruence.
Qed.

Lemma nan_not_below x c : classify x = NaN → PrimFloat.ltb x c = false.
Proof.
  intros H%(proj1 (classify_Prim2SF x)). by rewrite ltb_spec, H.
Qed.

Lemma infinity_not_below x c : classify x = PInf → PrimFloat.ltb x c = false.
Proof.
  intros H%(proj1 (proj2 (classify_Prim2SF x))). rewrite ltb_spec, H.
  by destruct (Prim2SF c) as [[]|[]| |[] ? ?].
Qed.

Lemma tranche_not_a_cap x :
  classify x = NaN ∨ classify x = PInf →
  getMarketCapTranche (Num x) = "10M-20M".
Proof.
  intros Hx. unfold getMarketCapTranche, js_lt. simpl.
  assert (Hc : ∀ c, PrimFloat.ltb x c = false).
  { intros c. destruct Hx; [by apply nan_not_below|by apply infinity_not_below]. }
  by rewrite !Hc.
Qed.

Lemma tranche_of_written x :
  getMarketCapTranche (Num x) = getMarketCapTranche (SerializeJSONNumber x) ↔
  classify x ≠ NaN ∧ classify x ≠ PInf.
Proof.
  unfold SerializeJSONNumber. destruct (classify x) eqn:Hc;
    try (split; [by split|done]).
  - split; [by split|]. intros _.
    change (getMarketCapTranche (Num 0%float)) with "unbonded-bonded".
    apply tranche_below_100k.
    destruct (classify_Prim2SF x) as (_ & _ & _ & H).
    by rewrite ltb_spec, (H Hc).
  - rewrite (tranche_not_a_cap x (or_intror Hc)).
    split; [done|]. by intros [_ ?].
  - split; [by split|]. intros _.
    apply tranche_below_100k.
    destruct (classify_Prim2SF x) as (_ & _ & H & _).
    by rewrite ltb_spec, (H Hc).
  - rewrite (tranche_not_a_cap x (or_introl Hc)).
    split; [done|]. by intros [? _].
Qed.


(** X10. When the snapshot is the one written for the market caps [M],
    comparing [M] again sends nothing exactly when no cap of [M] is NaN
    or positive infinity: such a cap is written as [null], read back as a
    cap below 100,000, and the token is notified on every pass. *)
Theorem second_pass_silent_iff (M : gmap string float) (w : world) :
  snapshot_file w = savePrevious M →
  ∃ w', trackMarketCapChanges M w = Some w' ∧
        (telegram w' = telegram w ↔
         ∀ mint cap, M !! mint = Some cap →
                     classify cap ≠ NaN ∧ classify cap ≠ PInf).
Proof.
  intros Hfile. unfold trackMarketCapChanges. rewrite Hfile. simpl.
  eexists. split; [reflexivity|]. simpl.
  rewrite <- (app_nil_r (telegram w)) at 2.
  split.
  - intros Hd%app_inv_head mint cap Hcap.
    destruct (proj1 (detect_nil _ _) Hd mint cap Hcap) as (p & Hp & Ht).
    rewrite lookup_fmap, Hcap in Hp. injection Hp as <-.
    exact (proj1 (tranche_of_written cap) Ht).
  - intros Hcaps. f_equal. apply detect_nil. intros mint cap Hcap.
    exists (SerializeJSONNumber cap). rewrite lookup_fmap, Hcap.
    split; [done|].
    apply (proj2 (tranche_of_written cap)). exact (Hcaps mint cap Hcap).
Qed.

Lemma second_pass_silent_iff_witness :
  ∃ w', trackMarketCapChanges {["T" := infinity]}
          (World (savePrevious {["T" := infinity]}) [] []) = Some w' ∧
        (telegram w' = [] ↔
         ∀ mint cap, ({["T" := infinity]} : gmap string float) !! mint = Some cap →
                     classify cap ≠ NaN ∧ classify cap ≠ PInf).
Proof.
  apply (second_pass_silent_iff {["T" := infinity]}
           (World (savePrevious {["T" := infinity]}) [] [])).
  reflexivity.
Defined.

(** ** Runs that end early *)

Lemma priceBatches_throws e batches : ∀ n t i batch,
  batches !! i = Some batch →
  batch ≠ [] →
  fetchTokenPrices e (n + i) (String.concat "," batch) = None →
  priceBatches e n batches t = None.
Proof.
  induction batches as [|b rest IH]; intros n t i batch Hb Hne Hf; [done|].
  destruct i as [|i]; simpl in Hb |- *.
  - injection Hb as ->. rewrite Nat.add_0_r in Hf. rewrite Hf.
    by destruct batch.
  - replace (n + S i) with (S n + i) in Hf by lia.
    destruct (fetchTokenPrices e n (String.concat "," b)) as [prices|].
    + by apply (IH _ _ i batch).
    + destruct b; [|done]. by apply (IH _ _ i batch).
Qed.

Lemma chunkArray_batch_nonempty {A} (array : list A) size j batch :
  0 < size → chunkArray array size !! j = Some batch → batch ≠ [].
Proof.
  intros Hsize Hb.
  rewrite (chunkArray_lookup_slice array size j Hsize) in Hb.
  destruct (Nat.ltb_spec (j * size) (length array)) as [Hj|]; [|done].
  injection Hb as <-. intros Hnil%(f_equal length).
  rewrite length_take, length_drop in Hnil. simpl in Hnil. lia.
Qed.

Lemma heldMints_none tokenAccounts :
  Forall (λ a, PrimFloat.ltb 0 (ToNumber (info_uiAmount a)) = false)
         tokenAccounts →
  heldMints tokenAccounts = [].
Proof.
  unfold heldMints. induction 1 as [|a l Ha _ IH]; [done|].
  rewrite filter_cons_False by congruence. exact IH.
Qed.

(** X11. A price response whose body has no [data] member ends the run
    on the spot, unlike a failed request: nothing is written and nobody
    is notified, whatever the other batches were answered. *)
Theorem response_without_data_aborts e w tokenAccounts i batch :
  getParsedTokenAccountsByOwner e = Some tokenAccounts →
  chunkArray (heldMints tokenAccounts) 99 !! i = Some batch →
  axios_get e i (RAYDIUM_API_URL ++ "?mints=" ++ String.concat "," batch)%string
    = HttpBody None →
  getAllTokenBalances e w = w.
Proof.
  intros Hrpc Hb Hbody. unfold getAllTokenBalances. rewrite Hrpc.
  destruct (0 <? length (heldMints tokenAccounts)); [|done]. cbv zeta.
  rewrite (priceBatches_throws e _ 0 _ i batch Hb); [done| |].
  - apply (chunkArray_batch_nonempty (heldMints tokenAccounts) 99 i);
      [lia|done].
  - unfold fetchTokenPrices. simpl. by rewrite Hbody.
Qed.

(** X12. When the token accounts cannot be fetched, or no account has a
    balance greater than 0 (zero, negative, NaN and [null] balances do not
    count), the run changes nothing. *)
Theorem nothing_held_nothing_done e w :
  (∀ tokenAccounts,
     getParsedTokenAccountsByOwner e = Some tokenAccounts →
     Forall (λ a, PrimFloat.ltb 0 (ToNumber (info_uiAmount a)) = false)
            tokenAccounts) →
  getAllTokenBalances e w = w.
Proof.
  intros Hnone. unfold getAllTokenBalances.
  destruct (getParsedTokenAccountsByOwner e) as [tokenAccounts|]; [|done].
  by rewrite (heldMints_none tokenAccounts (Hnone _ eq_refl)).
Qed.

(** ** A snapshot that cannot be parsed *)

Lemma run_keeps_unparsable e w :
  snapshot_file w = Some Unparsable →
  snapshot_file (getAllTokenBalances e w) = Some Unparsable ∧
  telegram (getAllTokenBalances e w) = telegram w.
Proof.
  intros Hfile. unfold getAllTokenBalances.
  destruct (getParsedTokenAccountsByOwner e) as [tokenAccounts|]; [|done].
  destruct (0 <? length (heldMints tokenAccounts)); [|done]. cbv zeta.
  destruct (priceBatches e 0 _ _) as [t|]; [|done].
  unfold trackMarketCapChanges, saveUnbondedCSV. simpl. by rewrite Hfile.
Qed.

Lemma run_keeps_parsable e w :
  snapshot_file w ≠ Some Unparsable →
  snapshot_file (getAllTokenBalances e w) ≠ Some Unparsable.
Proof.
  intros Hfile. unfold getAllTokenBalances.
  destruct (getParsedTokenAccountsByOwner e) as [tokenAccounts|]; [|done].
  destruct (0 <? length (heldMints tokenAccounts)); [|done]. cbv zeta.
  destruct (priceBatches e 0 _ _) as [t|]; [|done].
  unfold trackMarketCapChanges, saveUnbondedCSV. simpl.
  destruct (loadPrevious (snapshot_file w)); simpl; [done|exact Hfile].
Qed.

(** X13. A snapshot file that cannot be parsed is never repaired: after
    any number of runs it is still there, unparsable, and no notification
    was sent in the meantime. *)
Theorem unparsable_snapshot_stays (outside : list env) (w : world) :
  snapshot_file w = Some Unparsable →
  snapshot_file (scheduledRuns outside w) = Some Unparsable ∧
  telegram (scheduledRuns outside w) = telegram w.
Proof.
  unfold scheduledRuns. revert w.
  induction outside as [|e outside IH]; intros w Hfile; simpl; [done|].
  destruct (run_keeps_unparsable e w Hfile) as [Hfile' Htel].
  destruct (IH _ Hfile') as [? ?]. split; [done|congruence].
Qed.

(** X14. The script never leaves an unparsable snapshot behind: when the
    file is absent or parses before the runs, it is absent or parses
    after them. *)
Theorem parsable_snapshot_stays (outside : list env) (w : world) :
  snapshot_file w ≠ Some Unparsable →
  snapshot_file (scheduledRuns outside w) ≠ Some Unparsable.
Proof.
  unfold scheduledRuns. revert w.
  induction outside as [|e outside IH]; intros w Hfile; simpl; [done|].
  apply IH. by apply run_keeps_parsable.
Qed.

Lemma response_without_data_aborts_witness :
  getAllTokenBalances nodata_env (World None ["old"] [])
    = World None ["old"] [].
Proof.
  apply (response_without_data_aborts nodata_env (World None ["old"] [])
           pair_accounts 0 ["A"; "B"]); reflexivity.
Defined.

Lemma nothing_held_nothing_done_witness :
  getAllTokenBalances idle_env emptied_world = emptied_world.
Proof.
  apply (nothing_held_nothing_done idle_env emptied_world).
  intros tokenAccounts [= <-].
  repeat (constructor; [reflexivity|]). constructor.
Defined.

Lemma unparsable_snapshot_stays_witness :
  snapshot_file (scheduledRuns [pair_env; offline_env; pair_env]
                               (World (Some Unparsable) [] []))
    = Some Unparsable ∧
  telegram (scheduledRuns [pair_env; offline_env; pair_env]
                          (World (Some Unparsable) [] [])) = [].
Proof.
  apply (unparsable_snapshot_stays [pair_env; offline_env; pair_env]
           (World (Some Unparsable) [] [])).
  reflexivity.
Defined.

Lemma parsable_snapshot_stays_witness :
  snapshot_file (scheduledRuns [pair_env; nodata_env; offline_env]
                               (World None [] []))
    ≠ Some Unparsable.
Proof.
  apply (parsable_snapshot_stays [pair_env; nodata_env; offline_env]
           (World None [] [])).
  simpl. discriminate.
Defined.

(** ** The same outside world twice *)

Lemma caps_quoted e batches n t mint cap :
  priceBatches e n batches (Tally [] [] ∅) = Some t →
  currentMarketCaps t !! mint = Some cap →
  ∃ i batch, batches !! i = Some batch ∧ mint ∈ batch ∧
             batchQuote e (n + i) batch mint = Some cap.
Proof.
  intros Ht Hcap.
  destruct (priceBatches_caps_origin _ _ _ _ _ _ _ Ht Hcap) as [Hc|Hb]; [|done].
  simpl in Hc. by rewrite lookup_empty in Hc.
Qed.

(** X15. A run is idempotent: when the outside world answers a second
    run as it answered the first, and no market cap it quotes is NaN or
    positive infinity, the second run leaves everything as the first run
    left it: same files, no further notification. *)
Theorem run_twice_changes_nothing e w :
  (∀ tokenAccounts i batch mint cap,
     getParsedTokenAccountsByOwner e = Some tokenAccounts →
     chunkArray (heldMints tokenAccounts) 99 !! i = Some batch →
     batchQuote e i batch mint = Some cap →
     classify cap ≠ NaN ∧ classify cap ≠ PInf) →
  getAllTokenBalances e (getAllTokenBalances e w) = getAllTokenBalances e w.
Proof.
  intros Hcaps. unfold getAllTokenBalances at 2.
  destruct (getParsedTokenAccountsByOwner e) as [tokenAccounts|] eqn:Hrpc;
    [|unfold getAllTokenBalances; by rewrite Hrpc].
  destruct (0 <? length (heldMints tokenAccounts)) eqn:Hheld;
    [|unfold getAllTokenBalances; by rewrite Hrpc, Hheld].
  cbv zeta.
  destruct (priceBatches e 0 _ _) as [t|] eqn:Ht;
    [|unfold getAllTokenBalances; by rewrite Hrpc, Hheld, Ht].
  assert (Hquiet : detect (currentMarketCaps t)
                     (SerializeJSONNumber <$> currentMarketCaps t) = []).
  { apply detect_nil. intros mint cap Hcap.
    exists (SerializeJSONNumber cap). rewrite lookup_fmap, Hcap.
    split; [done|]. apply (proj2 (tranche_of_written cap)).
    destruct (caps_quoted _ _ _ _ _ _ Ht Hcap) as (i & batch & Hb & _ & Hq).
    exact (Hcaps _ _ _ _ _ eq_refl Hb Hq). }
  unfold trackMarketCapChanges, saveUnbondedCSV. simpl.
  destruct (loadPrevious (snapshot_file w)) as [previousData|] eqn:Hload; simpl.
  - unfold getAllTokenBalances. rewrite Hrpc, Hheld. cbv zeta. rewrite Ht.
    unfold trackMarketCapChanges, saveUnbondedCSV. simpl.
    rewrite Hload. simpl. by rewrite Hquiet, app_nil_r.
  - unfold getAllTokenBalances. rewrite Hrpc, Hheld. cbv zeta. rewrite Ht.
    unfold trackMarketCapChanges, saveUnbondedCSV. simpl.
    by rewrite Hload.
Qed.

Lemma run_twice_changes_nothing_witness :
  getAllTokenBalances pair_env
    (getAllTokenBalances pair_env emptied_world)
  = getAllTokenBalances pair_env emptied_world.
Proof.
  apply (run_twice_changes_nothing pair_env emptied_world).
  intros tokenAccounts i batch mint cap _ _.
  unfold batchQuote, fetchTokenPrices, priceOf. simpl.
  destruct (_ !! mint) as [p|]; simpl; [|done].
  destruct (truthy p); [|done]. intros [= <-]. by vm_compute.
Defined.

(** ** The three accumulators of the batch loop *)

Lemma classifyMint_classified e prices t mint :
  classified (classifyMint e prices t mint) ≡ₚ (classified t ++ [mint])%list.
Proof.
  rewrite classifyMint_priceOf. unfold classified.
  destruct (priceOf e prices mint) as [cap|]; simpl.
  - rewrite fmap_app. simpl. by rewrite <- !(assoc_L (++)), (comm (++) [mint]).
  - by rewrite (assoc_L (++)).
Qed.

Lemma batch_classified e prices batch : ∀ t,
  classified (foldl (classifyMint e prices) t batch)
    ≡ₚ (classified t ++ batch)%list.
Proof.
  induction batch as [|m batch IH] using rev_ind; intros t.
  - by rewrite app_nil_r.
  - rewrite foldl_snoc, classifyMint_classified, IH.
    by rewrite (assoc_L (++)).
Qed.

Lemma priceBatches_classified e batches : ∀ n t t',
  priceBatches e n batches t = Some t' →
  classified t' ≡ₚ (classified t ++ concat batches)%list.
Proof.
  induction batches as [|batch rest IH]; simpl; intros n t t' Hrun.
  - injection Hrun as <-. by rewrite app_nil_r.
  - destruct (fetchTokenPrices e n (String.concat "," batch)) as [prices|].
    + rewrite (IH _ _ _ Hrun), batch_classified. by rewrite (assoc_L (++)).
    + destruct batch; [|done]. by rewrite (IH _ _ _ Hrun).
Qed.

Lemma classifyMint_capsOfBonded e prices t mint :
  capsOfBonded t → capsOfBonded (classifyMint e prices t mint).
Proof.
  unfold capsOfBonded. intros Ht. rewrite classifyMint_priceOf.
  destruct (priceOf e prices mint) as [cap|]; simpl; [|done].
  by rewrite reverse_snoc, list_to_map_cons, Ht.
Qed.

Lemma batch_capsOfBonded e prices batch : ∀ t,
  capsOfBonded t → capsOfBonded (foldl (classifyMint e prices) t batch).
Proof.
  induction batch as [|m batch IH] using rev_ind; intros t Ht; [done|].
  rewrite foldl_snoc. apply classifyMint_capsOfBonded. by apply IH.
Qed.

Lemma priceBatches_capsOfBonded e batches : ∀ n t t',
  priceBatches e n batches t = Some t' →
  capsOfBonded t → capsOfBonded t'.
Proof.
  induction batches as [|batch rest IH]; simpl; intros n t t' Hrun Ht.
  - by injection Hrun as <-.
  - destruct (fetchTokenPrices e n (String.concat "," batch)) as [prices|].
    + apply (IH _ _ _ Hrun). by apply batch_capsOfBonded.
    + destruct batch; [|done]. by apply (IH _ _ _ Hrun).
Qed.

(** X16. When the batch loop completes, every mint of [mintAddresses]
    has been put exactly once in [bondedCoins] or in [unbondedCoins], a
    mint listed several times as many times as it is listed: the mints of
    the two lists together are a rearrangement of [mintAddresses]. *)
Theorem every_mint_classified_once e (mintAddresses : list string) t :
  priceBatches e 0 (chunkArray mintAddresses 99) (Tally [] [] ∅) = Some t →
  ((bondedCoins t).*1 ++ unbondedCoins t)%list ≡ₚ mintAddresses.
Proof.
  intros Ht. pose proof (priceBatches_classified _ _ _ _ _ Ht) as Hp.
  unfold classified in Hp. simpl in Hp.
  by rewrite chunkArray_concat in Hp by lia.
Qed.

Lemma every_mint_classified_once_witness :
  ((bondedCoins pair_tally).*1 ++ unbondedCoins pair_tally)%list ≡ₚ ["A"; "B"].
Proof.
  apply (every_mint_classified_once pair_env ["A"; "B"] pair_tally).
  vm_compute. reflexivity.
Defined.

(** X17. When the batch loop completes, [currentMarketCaps] is
    [bondedCoins] read as a dictionary in which a later entry of a mint
    replaces an earlier one; so its keys are the mints of [bondedCoins]
    and each of its values is listed with its mint in [bondedCoins]. *)
Theorem currentMarketCaps_of_bondedCoins e (batches : list (list string)) t :
  priceBatches e 0 batches (Tally [] [] ∅) = Some t →
  currentMarketCaps t = list_to_map (reverse (bondedCoins t)) ∧
  (∀ mint, is_Some (currentMarketCaps t !! mint) ↔ mint ∈ (bondedCoins t).*1) ∧
  (∀ mint cap, currentMarketCaps t !! mint = Some cap →
               (mint, cap) ∈ bondedCoins t).
Proof.
  intros Ht.
  assert (Hcaps : capsOfBonded t).
  { apply (priceBatches_capsOfBonded _ _ _ _ _ Ht). reflexivity. }
  unfold capsOfBonded in Hcaps. split; [done|]. rewrite Hcaps. split.
  - intros mint. rewrite <- elem_of_dom, dom_list_to_map_L, elem_of_list_to_set.
    by rewrite fmap_reverse, elem_of_reverse.
  - intros mint cap Hl%elem_of_list_to_map_2.
    exact (proj1 (elem_of_reverse _ _) Hl).
Qed.

Lemma currentMarketCaps_of_bondedCoins_witness :
  currentMarketCaps pair_tally = list_to_map (reverse (bondedCoins pair_tally)) ∧
  (∀ mint, is_Some (currentMarketCaps pair_tally !! mint)
           ↔ mint ∈ (bondedCoins pair_tally).*1) ∧
  (∀ mint cap, currentMarketCaps pair_tally !! mint = Some cap →
               (mint, cap) ∈ bondedCoins pair_tally).
Proof.
  apply (currentMarketCaps_of_bondedCoins pair_env [["A"; "B"]] pair_tally).
  vm_compute. reflexivity.
Defined.

(** ** What a run sends *)

(** X18. The notifications of a run are added after those sent before;
    there is at most one per mint, and each is about a mint listed in a
    batch of this run, with a market cap that the price response of that
    batch gives to the mint. *)
Theorem run_notifies_priced_tokens e w :
  ∃ sent,
    telegram (getAllTokenBalances e w) = (telegram w ++ sent)%list ∧
    NoDup (msg_mint <$> sent) ∧
    ∀ n, n ∈ sent →
      ∃ tokenAccounts i batch,
        getParsedTokenAccountsByOwner e = Some tokenAccounts ∧
        chunkArray (heldMints tokenAccounts) 99 !! i = Some batch ∧
        msg_mint n ∈ batch ∧
        batchQuote e i batch (msg_mint n) = Some (msg_marketCap n).
Proof.
  assert (Hnone : ∀ w0 : world,
            telegram w0 = telegram w →
            ∃ sent, telegram w0 = (telegram w ++ sent)%list ∧
              NoDup (msg_mint <$> sent) ∧
              ∀ n, n ∈ sent →
                ∃ tokenAccounts i batch,
                  getParsedTokenAccountsByOwner e = Some tokenAccounts ∧
                  chunkArray (heldMints tokenAccounts) 99 !! i = Some batch ∧
                  msg_mint n ∈ batch ∧
                  batchQuote e i batch (msg_mint n) = Some (msg_marketCap n)).
  { intros w0 Hw0. exists []. rewrite app_nil_r. split; [done|].
    split; [constructor|]. by intros n ?%elem_of_nil. }
  unfold getAllTokenBalances.
  destruct (getParsedTokenAccountsByOwner e) as [tokenAccounts|]; [|by apply Hnone].
  destruct (0 <? length (heldMints tokenAccounts)); [|by apply Hnone]. cbv zeta.
  destruct (priceBatches e 0 _ _) as [t|] eqn:Ht; [|by apply Hnone].
  unfold trackMarketCapChanges, saveUnbondedCSV. simpl.
  destruct (loadPrevious (snapshot_file w)) as [previousData|]; simpl;
    [|by apply Hnone].
  exists (detect (currentMarketCaps t) previousData). split; [done|]. split.
  - apply (sublist_NoDup _ _ (NoDup_fst_map_to_list (currentMarketCaps t))).
    apply detect_mints_sublist.
  - intros n (mint & cap & Hcap & Hn)%elem_of_detect.
    destruct (compareMint_about _ _ _ _ Hn) as [-> ->].
    destruct (caps_quoted _ _ _ _ _ _ Ht Hcap) as (i & batch & Hb & Hm & Hq).
    by exists tokenAccounts, i, batch.
Qed.



(** ** [saveToCSV]: the lines of the file *)

Lemma string_app_cons ch (a b : string) :
  (String ch a ++ b)%string = String ch (a ++ b)%string.
Proof. reflexivity. Qed.

Lemma string_app_nil_r (a : string) : (a ++ "")%string = a.
Proof.
  induction a as [|ch a IH]; [done|]. by rewrite string_app_cons, IH.
Qed.

Lemma string_app_assoc (a b c : string) :
  ((a ++ b) ++ c)%string = (a ++ (b ++ c))%string.
Proof.
  induction a as [|ch a IH]; [done|]. by rewrite !string_app_cons, IH.
Qed.

Lemma splitLines_line (a rest : string) :
  hasNewline a = false →
  splitLines (a ++ newline ++ rest)%string = a :: splitLines rest.
Proof.
  induction a as [|ch a IH]; intros Ha; [done|].
  simpl in Ha. apply orb_false_iff in Ha as [Hch Ha].
  rewrite string_app_cons. simpl. by rewrite Hch, (IH Ha).
Qed.

Lemma saveToCSV_rows numberToString (isBonded : bool) (data : list coin) :
  ∀ csv : string,
  foldl (λ (csvContent : string) (c : coin),
           if isBonded
           then (csvContent ++ (coin_mint c ++ "," ++
                  templateText numberToString (coin_marketCap c) ++ newline))%string
           else (csvContent ++ (coin_mint c ++ newline))%string)
        csv data
  = (csv ++ foldr (λ c text, csvRow numberToString isBonded c ++ newline ++ text)
                  "" data)%string.
Proof.
  induction data as [|c data IH]; intros csv; simpl.
  - by rewrite string_app_nil_r.
  - rewrite IH. unfold csvRow. destruct isBonded;
      by rewrite !string_app_assoc.
Qed.

Lemma splitLines_rows numberToString isBonded (data : list coin) :
  Forall (λ c, hasNewline (csvRow numberToString isBonded c) = false) data →
  splitLines (foldr (λ c text,
                       (csvRow numberToString isBonded c ++ newline ++ text)%string)
                    "" data)
  = ((csvRow numberToString isBonded <$> data) ++ [""])%list.
Proof.
  induction 1 as [|c data Hc _ IH]; simpl; [done|].
  by rewrite (splitLines_line _ _ Hc), IH.
Qed.

(** X20. When no line written for a coin holds a line break, the text
    that [saveToCSV] writes reads line by line as the header, then one
    line per coin in the order of the list ([mint] alone, or [mint], a
    comma and the market cap), then the empty end after the last line
    break.  With no coin the file is the header line alone. *)
Theorem saveToCSV_lines numberToString (data : list coin) isBonded :
  Forall (λ c, hasNewline (csvRow numberToString isBonded c) = false) data →
  splitLines (saveToCSV numberToString data isBonded)
  = (if isBonded then "Mint,MarketCap" else "Mint")
      :: ((csvRow numberToString isBonded <$> data) ++ [""])%list.
Proof.
  intros Hrows. unfold saveToCSV. rewrite saveToCSV_rows.
  destruct isBonded; rewrite string_app_assoc, splitLines_line by done;
    by rewrite (splitLines_rows _ _ _ Hrows).
Qed.

Lemma saveToCSV_lines_witness :
  splitLines (saveToCSV (λ _, "1") [Coin "A" None; Coin "B" None] false)
  = "Mint" :: ((csvRow (λ _, "1") false <$> [Coin "A" None; Coin "B" None])
               ++ [""])%list.
Proof.
  apply (saveToCSV_lines (λ _, "1") [Coin "A" None; Coin "B" None] false).
  repeat (constructor; [reflexivity|]). constructor.
Defined.

(** ** Crossing a threshold *)

Lemma tranche_separated x y c :
  c ∈ thresholds →
  PrimFloat.ltb x c = true →
  PrimFloat.leb c y = true →
  getMarketCapTranche (Num x) ≠ getMarketCapTranche (Num y).
Proof.
  unfold thresholds. intros Hc Hx Hy.
  repeat (apply elem_of_cons in Hc as [->|Hc]);
    [..|by apply elem_of_nil in Hc];
    tranche_tests;
    first
      [ done
      | exfalso;
        match goal with
        | H : PrimFloat.ltb x _ = false |- _ => rewrite Hx in H; discriminate H
        end
      | exfalso;
        match goal with
        | H : PrimFloat.ltb y ?t = true |- _ =>
            rewrite (threshold_passed y t _ Hy eq_refl) in H; discriminate H
        end ].
Qed.

(** X21. A token whose market cap moved across one of the thresholds
    since the previous run, upwards or downwards, is notified, with the
    tranche of its current cap. *)
Theorem crossing_a_threshold_notifies (current : gmap string float)
    (previousData : gmap string jsval) T cap p c :
  current !! T = Some cap →
  previousData !! T = Some (Num p) →
  c ∈ thresholds →
  (PrimFloat.ltb p c = true ∧ PrimFloat.leb c cap = true) ∨
  (PrimFloat.ltb cap c = true ∧ PrimFloat.leb c p = true) →
  notifyTelegram T (getMarketCapTranche (Num cap)) cap
    ∈ detect current previousData.
Proof.
  intros Hcur Hprev Hc Hcross.
  assert (Hne : getMarketCapTranche (Num cap) ≠ getMarketCapTranche (Num p)).
  { destruct Hcross as [[Hp Hcap]|[Hcap Hp]].
    - intros Heq. by apply (tranche_separated p cap c).
    - by apply (tranche_separated cap p c). }
  apply elem_of_detect. exists T, cap. split; [done|].
  unfold compareMint. rewrite Hprev.
  destruct (String.eqb_spec (getMarketCapTranche (Num cap))
                            (getMarketCapTranche (Num p))); [done|].
  apply list_elem_of_here.
Qed.

Lemma crossing_a_threshold_notifies_witness :
  notifyTelegram "A" (getMarketCapTranche (Num 150000%float)) 150000%float
    ∈ detect {["A" := 150000%float; "B" := 2000000%float]}
             {["A" := Num 50000%float; "B" := Num 2000000%float]}.
Proof.
  apply (crossing_a_threshold_notifies _ _ "A" 150000%float 50000%float
           100000%float).
  - reflexivity.
  - reflexivity.
  - apply list_elem_of_here.
  - left. split; reflexivity.
Defined.

(** X22. When every token of the current mapping was in the previous
    mapping with a market cap of the same bracket [[lower, upper)] of the
    table, nothing is sent. *)
Theorem staying_in_a_bracket_is_silent (current : gmap string float)
    (previousData : gmap string jsval) :
  (∀ mint cap, current !! mint = Some cap →
     ∃ p lower upper label,
       previousData !! mint = Some (Num p) ∧
       (lower, upper, label) ∈ bracket_table ∧
       in_bracket cap lower upper = true ∧
       in_bracket p lower upper = true) →
  detect current previousData = [].
Proof.
  intros Hstay. apply detect_nil. intros mint cap Hcap.
  destruct (Hstay mint cap Hcap) as (p & lower & upper & label & Hp & Hrow & Hc & Hpb).
  exists (Num p). split; [done|].
  rewrite (tranche_of_bracket cap lower upper label Hrow Hc).
  by rewrite (tranche_of_bracket p lower upper label Hrow Hpb).
Qed.

Lemma staying_in_a_bracket_is_silent_witness :
  detect {["T" := 450000%float]} {["T" := Num 420000%float]} = [].
Proof.
  apply staying_in_a_bracket_is_silent. intros mint cap Hcap.
  exists 420000%float, 100000%float, (Some 500000%float), "0-100k".
  destruct (decide (mint = "T")) as [->|Hne].
  - rewrite lookup_singleton_eq in Hcap. injection Hcap as <-.
    split; [reflexivity|].
    split; [apply list_elem_of_lookup_2 with 1; reflexivity|].
    split; reflexivity.
  - by rewrite lookup_singleton_ne in Hcap.
Defined.
